(** * logisticmap.cpp: a LADSPA noise generator iterating the logistic map

    A shallow embedding of [src/logisticmap.cpp] and the properties its
    specification states about it.

    - [LADSPA_Data] is C's [float]: IEEE 754 binary32, every operation
      rounded to nearest-even on its own (the x86-64 SSE evaluation of a
      [g++] build, FLT_EVAL_METHOD 0, no fused multiply-add).  The
      arithmetic is the Standard Library's [SpecFloat] at precision 24 and
      [emax] 128.  A NaN carries no payload there.
    - The host's memory is a finite map from cell addresses to floats; a
      pointer is an address, [NULL] is address 0, [p[i]] is cell [p + i].
      Reading or writing a cell that is not mapped is undefined behaviour.
    - [unsigned long] is 64 bits wide, [int] is 32 bits wide (LP64).
      Overflow of the [int] loop counter is undefined behaviour.
    - An instance is passed explicitly: the handle a host holds stands for
      the [lmng_state] record it points to.  The record lives apart from
      the host's cells, so no port can alias [current].  Exhaustion of the
      free store in [new] is not modelled.
    - The function pointers of the descriptor table are left out of the
      record [LADSPA_Descriptor]; its flags are kept symbolic, their bit
      values being those of [ladspa.h]. *)

From Stdlib Require Import ZArith Bool List Lia.
From Stdlib Require Import Floats.SpecFloat.
From stdpp Require Import base option strings gmap.

Local Open Scope Z_scope.

(** ** binary32 arithmetic *)

Module Binary32.

Definition prec : Z := 24.
Definition emax : Z := 128.

(** [int] to [float] conversion *)
Definition of_int (z : Z) : spec_float := binary_normalize prec emax z 0 false.

Definition mul : spec_float -> spec_float -> spec_float := SFmul prec emax.
Definition sub : spec_float -> spec_float -> spec_float := SFsub prec emax.
Definition ltb : spec_float -> spec_float -> bool := SFltb.
Definition leb : spec_float -> spec_float -> bool := SFleb.
Definition eqb : spec_float -> spec_float -> bool := SFeqb.

(** a well-formed binary32 datum *)
Definition valid (x : spec_float) : bool := valid_binary prec emax x.

Definition is_nan (x : spec_float) : bool :=
  match x with S754_nan => true | _ => false end.

Definition is_zero (x : spec_float) : bool :=
  match x with S754_zero _ => true | _ => false end.

(** the literals of the source *)
Definition zero : spec_float := S754_zero false.            (* 0.0f *)
Definition one : spec_float := S754_finite false 8388608 (-23).  (* 1 *)
Definition four : spec_float := S754_finite false 8388608 (-21). (* 4.0f *)

(** [0 <= x <= 1] as C's comparisons decide it *)
Definition in_unit (x : spec_float) : bool := leb zero x && leb x one.

(** neither an infinity nor a NaN *)
Definition is_finite (x : spec_float) : bool :=
  match x with S754_zero _ | S754_finite _ _ _ => true | _ => false end.

(** *** Notions used to reason about rounding *)

(** The record reached after [j] one-bit shifts of [N]: the quotient, and
    the remainder split into its top bit (round) and the rest (sticky). *)
Definition shr_inv (N : Z) (j : Z) (mrs : shr_record) : Prop :=
  shr_m mrs = N / 2 ^ j /\
  exists t, 0 <= t /\ (shr_s mrs = false <-> t = 0) /\
    N mod 2 ^ j = (if shr_r mrs then 2 ^ (j - 1) else 0) + t /\
    (t < 2 ^ (j - 1) \/ (j = 0 /\ t = 0 /\ shr_r mrs = false)).

(** the mantissa [m] has the exponent binary32 prescribes for its size *)
Definition canonical (m : positive) (e : Z) : Prop :=
  fexp prec emax (Zpos (digits2_pos m) + e) = e.

(** [res] is the datum that stands for [n * 2^E]: a zero, or a canonical
    mantissa and exponent of the same value (an infinity when the exponent
    is out of range). *)
Definition rounded_to (s : bool) (n E : Z) (res : spec_float) : Prop :=
  (n = 0 /\ res = S754_zero s) \/
  (exists m' e', 0 <= e' - E /\ n = Zpos m' * 2 ^ (e' - E) /\ canonical m' e' /\
     res = if e' <=? emax - prec then S754_finite s m' e' else S754_infinity s).

(** [pv S m e] is the value [m * 2^e] counted in units of [2^(-S)]. *)
Definition pv (S : Z) (m : positive) (e : Z) : Z := Zpos m * 2 ^ (e + S).

(** [x] is a well-formed datum that is not negative, of value [V] on the
    scale [S]. *)
Definition nonneg_value (S : Z) (x : spec_float) (V : Z) : Prop :=
  (V = 0 /\ exists s, x = S754_zero s) \/
  (exists m e, x = S754_finite false m e /\ canonical m e /\ e <= emax - prec /\
     V = pv S m e).

End Binary32.

Abbreviation LADSPA_Data := spec_float.

(** ** Outcomes of a call *)

Inductive undefined_behaviour : Type :=
  | BadDereference   (* access through NULL or to a cell that is not mapped *)
  | SignedOverflow.  (* [++i] on [i = INT_MAX] *)

Inductive outcome (A : Type) : Type :=
  | Done (a : A)
  | Undefined (u : undefined_behaviour)
  | OutOfFuel.
Arguments Done {A} a.
Arguments Undefined {A} u.
Arguments OutOfFuel {A}.

Definition obind {A B : Type} (c : outcome A) (k : A -> outcome B) : outcome B :=
  match c with
  | Done a => k a
  | Undefined u => Undefined u
  | OutOfFuel => OutOfFuel
  end.

Notation "'let*' x := c 'in' k" := (obind c (fun x => k))
  (at level 10, x name, c at level 100, k at level 200).

(** ** Host memory *)

Definition NULL : Z := 0.

Definition load (m : gmap Z LADSPA_Data) (p : Z) : outcome LADSPA_Data :=
  if p =? NULL then Undefined BadDereference
  else match m !! p with
       | Some v => Done v
       | None => Undefined BadDereference
       end.

Definition store (m : gmap Z LADSPA_Data) (p : Z) (v : LADSPA_Data)
  : outcome (gmap Z LADSPA_Data) :=
  if p =? NULL then Undefined BadDereference
  else match m !! p with
       | Some _ => Done (<[p := v]> m)
       | None => Undefined BadDereference
       end.

(** a pointer that may be dereferenced *)
Definition valid_ptr (m : gmap Z LADSPA_Data) (p : Z) : Prop :=
  p <> NULL /\ is_Some (m !! p).

(** a buffer of [n] cells that may be written *)
Definition valid_buf (m : gmap Z LADSPA_Data) (p n : Z) : Prop :=
  forall i, 0 <= i < n -> valid_ptr m (p + i).

(** ** Machine integers *)

Definition INT_MAX : Z := 2147483647.
Definition ULONG_MAX : Z := 18446744073709551615.

(** the conversion of an [int] to [unsigned long] in [i < sampleCount] *)
Definition ulong_of_int (i : Z) : Z := i mod (ULONG_MAX + 1).

(** [++i] on an [int] *)
Definition int_succ (i : Z) : outcome Z :=
  if i <? INT_MAX then Done (i + 1) else Undefined SignedOverflow.

(** ** The descriptor table *)

Definition PLUGIN_BASE : Z := 1.
Definition PLUGIN_ID (x : Z) : Z := PLUGIN_BASE + x.

Definition PORT_R : Z := 0.
Definition PORT_SEED : Z := 1.
Definition PORT_OUT : Z := 2.
Definition PORT_COUNT : Z := 3.

Inductive port_flag : Type :=
  | LADSPA_PORT_INPUT | LADSPA_PORT_OUTPUT
  | LADSPA_PORT_CONTROL | LADSPA_PORT_AUDIO.

Inductive hint_flag : Type :=
  | LADSPA_HINT_BOUNDED_BELOW | LADSPA_HINT_BOUNDED_ABOVE
  | LADSPA_HINT_DEFAULT_0 | LADSPA_HINT_DEFAULT_HIGH.

Record LADSPA_PortRangeHint : Type := {
  HintDescriptor : list hint_flag;
  LowerBound : LADSPA_Data;
  UpperBound : LADSPA_Data
}.

Definition plugin_ports : list (list port_flag) :=
  [ [LADSPA_PORT_INPUT; LADSPA_PORT_CONTROL];
    [LADSPA_PORT_INPUT; LADSPA_PORT_CONTROL];
    [LADSPA_PORT_OUTPUT; LADSPA_PORT_AUDIO] ].

Definition plugin_portnames : list string :=
  [ "R (float 0-4)"%string; "Seed value (float)"%string; "Noise"%string ].

Definition plugin_hints : list LADSPA_PortRangeHint :=
  [ {| HintDescriptor := [LADSPA_HINT_BOUNDED_BELOW; LADSPA_HINT_BOUNDED_ABOVE;
                          LADSPA_HINT_DEFAULT_HIGH];
       LowerBound := Binary32.zero; UpperBound := Binary32.four |};
    {| HintDescriptor := [LADSPA_HINT_BOUNDED_BELOW; LADSPA_HINT_BOUNDED_ABOVE;
                          LADSPA_HINT_DEFAULT_0];
       LowerBound := Binary32.zero; UpperBound := Binary32.one |};
    {| HintDescriptor := [LADSPA_HINT_BOUNDED_BELOW; LADSPA_HINT_BOUNDED_ABOVE];
       LowerBound := Binary32.zero; UpperBound := Binary32.one |} ].

Record LADSPA_Descriptor : Type := {
  UniqueID : Z;
  Label : string;
  Properties : Z;
  Name : string;
  Maker : string;
  Copyright : string;
  PortCount : Z;
  PortDescriptors : list (list port_flag);
  PortNames : list string;
  PortRangeHints : list LADSPA_PortRangeHint
}.

Definition plugin : LADSPA_Descriptor := {|
  UniqueID := PLUGIN_ID 0;
  Label := "LogisticMapGenerator";
  Properties := 0;
  Name := "Logistic Map noise generator";
  Maker := "Kythyria Tieran";
  Copyright := "None";
  PortCount := PORT_COUNT;
  PortDescriptors := plugin_ports;
  PortNames := plugin_portnames;
  PortRangeHints := plugin_hints
|}.

(** A [const LADSPA_Descriptor *].  The code tells apart the null pointer,
    the address of its own [plugin] and every other address. *)
Inductive descriptor_ptr : Type :=
  | desc_null
  | desc_plugin                (* [&plugin] *)
  | desc_foreign (address : Z).

Definition deref_descriptor (p : descriptor_ptr) : option LADSPA_Descriptor :=
  match p with
  | desc_plugin => Some plugin
  | _ => None
  end.

Definition ladspa_descriptor (Index : Z) : descriptor_ptr :=
  if Index >? 0 then desc_null else desc_plugin.

(** ** The instance *)

Record lmng_state : Type := {
  r : Z;
  seed : Z;
  outbuf : Z;
  current : LADSPA_Data
}.

(** [new lmng_state()]: value-initialisation of a class without a
    constructor zeroes every member. *)
Definition lmng_state_new : lmng_state :=
  {| r := NULL; seed := NULL; outbuf := NULL; current := Binary32.zero |}.

(** [None] is the null handle. *)
Definition lmng_new (desc : descriptor_ptr) (samplerate : Z) : option lmng_state :=
  match desc with
  | desc_plugin => Some lmng_state_new
  | _ => None
  end.

Definition lmng_connect (inst : lmng_state) (port : Z) (location : Z) : lmng_state :=
  if port =? PORT_R then
    {| r := location; seed := seed inst; outbuf := outbuf inst; current := current inst |}
  else if port =? PORT_SEED then
    {| r := r inst; seed := location; outbuf := outbuf inst; current := current inst |}
  else if port =? PORT_OUT then
    {| r := r inst; seed := seed inst; outbuf := location; current := current inst |}
  else inst.

(** [delete (lmng_state* )instance]: the record is gone, nothing of the
    host's is released. *)
Definition lmng_delete (instance : option lmng_state) : unit := tt.

Definition set_current (inst : lmng_state) (v : LADSPA_Data) : lmng_state :=
  {| r := r inst; seed := seed inst; outbuf := outbuf inst; current := v |}.

Definition lmng_activate (m : gmap Z LADSPA_Data) (inst : lmng_state)
  : outcome lmng_state :=
  let* s := load m (seed inst) in
  Done (set_current inst s).

(** the two [if]s at the head of [lmng_run] *)
Definition clamp_r (r0 : LADSPA_Data) : LADSPA_Data :=
  let r1 := if Binary32.ltb Binary32.four r0 then Binary32.four else r0 in
  if Binary32.ltb r1 Binary32.zero then Binary32.zero else r1.

(** [r * current * (1 - current)] *)
Definition logistic (g x : LADSPA_Data) : LADSPA_Data :=
  Binary32.mul (Binary32.mul g x) (Binary32.sub (Binary32.of_int 1) x).

(** The [for] loop, entered at the test [i < sampleCount]. *)
Fixpoint run_loop (fuel : nat) (g : LADSPA_Data) (sampleCount : Z) (i : Z)
    (m : gmap Z LADSPA_Data) (inst : lmng_state)
  : outcome (gmap Z LADSPA_Data * lmng_state) :=
  if ulong_of_int i <? sampleCount then
    match fuel with
    | O => OutOfFuel
    | S fuel' =>
        let* m' := store m (outbuf inst + i) (current inst) in
        let inst' := set_current inst (logistic g (current inst)) in
        let* i' := int_succ i in
        run_loop fuel' g sampleCount i' m' inst'
    end
  else Done (m, inst).

Definition lmng_run (m : gmap Z LADSPA_Data) (inst : lmng_state) (sampleCount : Z)
  : outcome (gmap Z LADSPA_Data * lmng_state) :=
  let* r0 := load m (r inst) in
  run_loop (Z.to_nat sampleCount) (clamp_r r0) sampleCount 0 m inst.

(** ** The recurrence of the specification

    [recurrence g x k] is the state after [k] applications of the map
    [x' = g * x * (1 - x)] to [x]; sample [k] of a block is specified as
    this value. *)
Fixpoint recurrence (g x : LADSPA_Data) (k : nat) : LADSPA_Data :=
  match k with
  | O => x
  | S k' => logistic g (recurrence g x k')
  end.

Definition completes {A : Type} (o : outcome A) : bool :=
  match o with Done _ => true | _ => false end.

Definition is_undefined {A : Type} (o : outcome A) : bool :=
  match o with Undefined _ => true | _ => false end.

(** Two outcomes of [lmng_run] that cannot be told apart by the block
    written to [out .. out + n - 1], the final instance and every cell
    other than [a]. *)
Definition same_run (a out n : Z)
    (o1 o2 : outcome (gmap Z LADSPA_Data * lmng_state)) : Prop :=
  match o1, o2 with
  | Done (m1, s1), Done (m2, s2) =>
      s1 = s2 /\
      (forall j, 0 <= j < n -> m1 !! (out + j) = m2 !! (out + j)) /\
      (forall p, p <> a -> m1 !! p = m2 !! p)
  | Undefined u1, Undefined u2 => u1 = u2
  | _, _ => False
  end.

(** memories that agree everywhere but at [a], where both or neither may
    be accessed *)
Definition agree_off (a : Z) (m1 m2 : gmap Z LADSPA_Data) : Prop :=
  (forall p, p <> a -> m1 !! p = m2 !! p) /\
  (is_Some (m1 !! a) <-> is_Some (m2 !! a)).

(** a sequence of [connect] calls, oldest first *)
Definition connect_all (inst : lmng_state) (calls : list (Z * Z)) : lmng_state :=
  fold_left (fun i c => lmng_connect i (fst c) (snd c)) calls inst.

(** ** A small host, for concrete runs

    The control values live in cells 10 and 11 and the audio block in
    cells 20, 21 and 22. *)
Definition host_memory (rv sv : LADSPA_Data) : gmap Z LADSPA_Data :=
  <[10 := rv]> (<[11 := sv]> (<[20 := Binary32.zero]>
    (<[21 := Binary32.zero]> (<[22 := Binary32.zero]> ∅)))).

Definition host_instance : lmng_state :=
  lmng_connect (lmng_connect (lmng_connect lmng_state_new PORT_R 10) PORT_SEED 11)
    PORT_OUT 20.

(** 0.5f *)
Definition half : LADSPA_Data := S754_finite false 8388608 (-24).

(** ** Range hints and signs *)

(** [v] lies between the two bounds of the hint [h], as C's comparisons
    decide it *)
Definition within_hint (h : LADSPA_PortRangeHint) (v : LADSPA_Data) : bool :=
  Binary32.leb (LowerBound h) v && Binary32.leb v (UpperBound h).

(** [x] is a well-formed datum that is a zero, a NaN, or a finite datum or
    an infinity of sign [s] ([true] is the minus sign) *)
Definition has_sign (s : bool) (x : spec_float) : Prop :=
  Binary32.valid x = true /\
  match x with
  | S754_zero _ | S754_nan => True
  | S754_infinity s' | S754_finite s' _ _ => s' = s
  end.

(** ** Instances behind handles

    What a host holds is a [LADSPA_Handle]: the address of the
    [lmng_state] that [new] returned.  Here the free store of instances is
    a finite map [live] from addresses to records.  [new] takes an address
    that is neither null nor in use, [delete] gives it back.

    [instantiate], [connect_port], [activate], [run] and [cleanup] are
    [lmng_new], [lmng_connect], [lmng_activate], [lmng_run] and
    [lmng_delete] as the host calls them, with the handle in place of the
    record.  A member access through a handle that holds no live instance
    is undefined behaviour ([BadDereference]), and so is [delete] on such a
    handle unless it is null. *)

(** the address [new] returns *)
Definition fresh_handle (live : gmap Z lmng_state) : Z :=
  fresh ({[NULL]} ∪ dom live).

Definition instantiate (live : gmap Z lmng_state) (desc : descriptor_ptr)
    (samplerate : Z) : Z * gmap Z lmng_state :=
  match lmng_new desc samplerate with
  | Some inst => (fresh_handle live, <[fresh_handle live := inst]> live)
  | None => (NULL, live)
  end.

(** [inst->...] with [inst = (lmng_state* )instance] *)
Definition deref_instance (live : gmap Z lmng_state) (h : Z) : outcome lmng_state :=
  if h =? NULL then Undefined BadDereference
  else match live !! h with
       | Some inst => Done inst
       | None => Undefined BadDereference
       end.

(** The handle is only cast before the [switch]; it is dereferenced in the
    three cases, and not at all for any other port index. *)
Definition connect_port (live : gmap Z lmng_state) (h port location : Z)
  : outcome (gmap Z lmng_state) :=
  if (port =? PORT_R) || (port =? PORT_SEED) || (port =? PORT_OUT) then
    let* inst := deref_instance live h in
    Done (<[h := lmng_connect inst port location]> live)
  else Done live.

Definition activate (live : gmap Z lmng_state) (m : gmap Z LADSPA_Data) (h : Z)
  : outcome (gmap Z lmng_state) :=
  let* inst := deref_instance live h in
  let* inst' := lmng_activate m inst in
  Done (<[h := inst']> live).

Definition run (live : gmap Z lmng_state) (m : gmap Z LADSPA_Data) (h : Z)
    (sampleCount : Z) : outcome (gmap Z LADSPA_Data * gmap Z lmng_state) :=
  let* inst := deref_instance live h in
  let* res := lmng_run m inst sampleCount in
  Done (fst res, <[h := snd res]> live).

(** [delete (lmng_state* )instance]: nothing happens on the null pointer *)
Definition cleanup (live : gmap Z lmng_state) (h : Z) : outcome (gmap Z lmng_state) :=
  if h =? NULL then Done live
  else match live !! h with
       | Some _ => Done (delete h live)
       | None => Undefined BadDereference
       end.

(** The life of one instance as a host drives it: discovery at index 0,
    instantiation, the three ports bound to [rp], [sp] and [op],
    activation, one block of [n] samples, clean-up. *)
Definition host_session (live : gmap Z lmng_state) (m : gmap Z LADSPA_Data)
    (samplerate rp sp op n : Z)
  : outcome (gmap Z LADSPA_Data * gmap Z lmng_state) :=
  let hl := instantiate live (ladspa_descriptor 0) samplerate in
  let* l1 := connect_port (snd hl) (fst hl) PORT_R rp in
  let* l2 := connect_port l1 (fst hl) PORT_SEED sp in
  let* l3 := connect_port l2 (fst hl) PORT_OUT op in
  let* l4 := activate l3 m (fst hl) in
  let* res := run l4 m (fst hl) n in
  let* l5 := cleanup (snd res) (fst hl) in
  Done (fst res, l5).

(** * Properties *)

(** ** Rounding in binary32

    What [SpecFloat]'s multiplication and subtraction compute, stated on
    integers: every value is counted in units of [2^(-S)] for a scale [S]
    large enough to make it an integer. *)

Module Binary32Lemmas.
Import Binary32.

Lemma digits2_bounds m :
  2 ^ (Zpos (digits2_pos m) - 1) <= Zpos m < 2 ^ Zpos (digits2_pos m).
Proof.
  induction m as [m IH|m IH|]; simpl digits2_pos.
  - rewrite Pos2Z.inj_succ.
    replace (Z.succ (Z.pos (digits2_pos m)) - 1) with (Z.succ (Z.pos (digits2_pos m) - 1)) by lia.
    rewrite !Z.pow_succ_r by lia. lia.
  - rewrite Pos2Z.inj_succ.
    replace (Z.succ (Z.pos (digits2_pos m)) - 1) with (Z.succ (Z.pos (digits2_pos m) - 1)) by lia.
    rewrite !Z.pow_succ_r by lia. lia.
  - simpl. lia.
Qed.

Lemma pow2_pos k : 0 <= k -> 0 < 2 ^ k.
Proof. intros. apply Z.pow_pos_nonneg; lia. Qed.

Lemma pow2_lt_inv a b : 0 <= b -> 2 ^ a < 2 ^ b -> a < b.
Proof. intros Hb H. apply (Z.pow_lt_mono_r_iff 2); lia. Qed.

Lemma pow2_le a b : 0 <= a <= b -> 2 ^ a <= 2 ^ b.
Proof. intros. apply Z.pow_le_mono_r; lia. Qed.

Lemma pow2_lt a b : 0 <= a < b -> 2 ^ a < 2 ^ b.
Proof. intros. apply Z.pow_lt_mono_r; lia. Qed.

(** [d] is the number of digits of [n] when [2^(d-1) <= n < 2^d] *)
Lemma Zdigits2_unique n d :
  0 < d -> 2 ^ (d - 1) <= n < 2 ^ d -> Zdigits2 n = d.
Proof.
  intros Hd [Hlo Hhi].
  assert (0 < n) by (pose proof (pow2_pos (d - 1)); lia).
  destruct n as [|p|p]; try lia. simpl.
  pose proof (digits2_bounds p) as [Hl Hh].
  assert (Zpos (digits2_pos p) - 1 < d).
  { apply pow2_lt_inv; lia. }
  assert (d - 1 < Zpos (digits2_pos p)).
  { apply pow2_lt_inv; lia. }
  lia.
Qed.

Lemma iter_pos_nat {A} (f : A -> A) p x :
  SpecFloat.iter_pos f p x = Nat.iter (Pos.to_nat p) f x.
Proof.
  revert x. induction p as [p IH|p IH|]; intros x; simpl SpecFloat.iter_pos.
  - rewrite !IH. rewrite Pos2Nat.inj_xI. simpl.
    rewrite <- Nat.iter_add. rewrite Nat.iter_swap.
    replace (Pos.to_nat p + (Pos.to_nat p + 0))%nat with (Pos.to_nat p + Pos.to_nat p)%nat by lia.
    reflexivity.
  - rewrite !IH. rewrite Pos2Nat.inj_xO. rewrite <- Nat.iter_add.
    replace (2 * Pos.to_nat p)%nat with (Pos.to_nat p + Pos.to_nat p)%nat by lia.
    reflexivity.
  - reflexivity.
Qed.

Lemma shr_1_spec m rb sb :
  0 <= m ->
  shr_1 (Build_shr_record m rb sb) = Build_shr_record (m / 2) (Z.odd m) (rb || sb).
Proof.
  intros Hm. destruct m as [|p|p]; [reflexivity| |lia].
  destruct p as [p|p|]; simpl shr_1; f_equal; try reflexivity.
  - rewrite Pos2Z.inj_xI. apply Z.div_unique with 1; lia.
  - rewrite Pos2Z.inj_xO. apply Z.div_unique with 0; lia.
Qed.


Lemma shr_inv_0 N : shr_inv N 0 (Build_shr_record N false false).
Proof.
  split; simpl.
  - rewrite Z.div_1_r. reflexivity.
  - exists 0. rewrite Z.mod_1_r. repeat split; auto. lia.
Qed.

Lemma shr_inv_step N j mrs :
  0 <= N -> 0 <= j -> shr_inv N j mrs -> shr_inv N (j + 1) (shr_1 mrs).
Proof.
  intros HN Hj [Hm (t & Ht0 & Hs & Hmod & Ht)].
  destruct mrs as [m rb sb]. simpl in Hm, Hs, Hmod, Ht.
  assert (Hp : 0 < 2 ^ j) by (apply pow2_pos; lia).
  assert (Hm0 : 0 <= m) by (subst m; apply Z.div_pos; lia).
  rewrite shr_1_spec by assumption.
  assert (Hpow : 2 ^ (j + 1) = 2 ^ j * 2) by (rewrite Z.pow_add_r by lia; reflexivity).
  split; simpl.
  - rewrite Hpow, <- Z.div_div by lia. rewrite Hm. reflexivity.
  - exists (N mod 2 ^ j).
    replace (j + 1 - 1) with j by lia.
    pose proof (Z.mod_pos_bound N (2 ^ j) Hp) as Hb.
    split; [lia|]. split; [|split].
    + rewrite Hmod. destruct rb, sb; simpl; split; intros H; try discriminate; try reflexivity.
      * pose proof (pow2_pos (j - 1)). destruct Ht as [Ht|(-> & _ & [=])].
        assert (0 <= j - 1 \/ j - 1 < 0) as [?|?] by lia.
        -- lia.
        -- rewrite Z.pow_neg_r in Ht by lia. lia.
      * destruct Ht as [Ht|(-> & _ & [=])].
        assert (0 <= j - 1 \/ j - 1 < 0) as [?|?] by lia.
        -- pose proof (pow2_pos (j - 1)). lia.
        -- rewrite Z.pow_neg_r in Ht by lia. lia.
      * destruct Hs as [_ Hs]. assert (t = 0) by lia. specialize (Hs H0). discriminate.
      * destruct Hs as [Hs _]. specialize (Hs eq_refl). lia.
    + rewrite Hpow. rewrite Z.rem_mul_r by lia. rewrite <- Hm.
      rewrite Zmod_odd. destruct (Z.odd m); lia.
    + left. lia.
Qed.

Lemma shr_inv_iter N (j : nat) :
  0 <= N ->
  shr_inv N (Z.of_nat j) (Nat.iter j shr_1 (Build_shr_record N false false)).
Proof.
  intros HN. induction j as [|j IH].
  - apply shr_inv_0.
  - rewrite Nat2Z.inj_succ. unfold Z.succ. simpl Nat.iter.
    apply shr_inv_step; [assumption | lia | assumption].
Qed.

(** Truncation of [N] by [k] bits followed by rounding to nearest-even adds
    [b] to the quotient, where [b] is 0 or 1, [b = 1] only above or at the
    half and [b = 0] only below or at the half. *)
Lemma round_shr_spec N e k :
  0 <= N -> 0 <= k ->
  exists b, (b = 0 \/ b = 1) /\
    (b = 1 -> 0 < k /\ 2 ^ k <= 2 * (N mod 2 ^ k)) /\
    (b = 0 -> 2 * (N mod 2 ^ k) <= 2 ^ k) /\
    snd (shr (shr_record_of_loc N loc_Exact) e k) = e + k /\
    (let mrs := fst (shr (shr_record_of_loc N loc_Exact) e k) in
     round_nearest_even (shr_m mrs) (loc_of_shr_record mrs) = N / 2 ^ k + b).
Proof.
  intros HN Hk. destruct k as [|p|p]; [| |lia].
  - exists 0. simpl. rewrite Z.mod_1_r, Z.div_1_r. repeat split; auto; lia.
  - unfold shr. simpl fst. simpl snd. rewrite iter_pos_nat.
    pose proof (shr_inv_iter N (Pos.to_nat p) HN) as Hinv.
    rewrite positive_nat_Z in Hinv. simpl shr_record_of_loc.
    destruct (Nat.iter (Pos.to_nat p) shr_1 _) as [m rb sb].
    destruct Hinv as [Hm (t & Ht0 & Hs & Hmod & Ht)]. simpl in *.
    destruct Ht as [Ht|(? & _)]; [|lia].
    assert (Hpow : 2 ^ Z.pos p = 2 * 2 ^ (Z.pos p - 1)).
    { replace (Z.pos p) with (Z.succ (Z.pos p - 1)) at 1 by lia.
      apply Z.pow_succ_r. lia. }
    pose proof (pow2_pos (Z.pos p - 1)).
    destruct rb, sb; simpl.
    + exists 1. rewrite Hm, Hmod. repeat split; try lia.
    + destruct (Z.even m).
      * exists 0. rewrite Hm, Hmod. repeat split; try lia.
      * exists 1. rewrite Hm, Hmod. repeat split; try lia.
    + exists 0. rewrite Hm, Hmod. repeat split; try lia.
    + exists 0. rewrite Hm, Hmod. repeat split; try lia.
Qed.



Lemma fexp_eq x : fexp prec emax x = Z.max (x - 24) (-149).
Proof. reflexivity. Qed.

Lemma shr_fexp_exact_0 n E :
  fexp prec emax (Zdigits2 n + E) = E ->
  shr_fexp prec emax n E loc_Exact = (Build_shr_record n false false, E).
Proof.
  intros H. unfold shr_fexp. rewrite H, Z.sub_diag. reflexivity.
Qed.

Lemma shr_fexp_exact_1 n E :
  0 <= n -> fexp prec emax (Zdigits2 n + E) = E + 1 ->
  shr_fexp prec emax n E loc_Exact
    = (Build_shr_record (n / 2) (Z.odd n) false, E + 1).
Proof.
  intros Hn H. unfold shr_fexp. rewrite H.
  replace (E + 1 - E) with 1 by lia.
  cbn [shr SpecFloat.iter_pos shr_record_of_loc].
  rewrite shr_1_spec by assumption. reflexivity.
Qed.

Lemma div_pow2_bounds m a k :
  0 <= k -> 0 <= a -> m < 2 ^ (a + k) -> m / 2 ^ k < 2 ^ a.
Proof.
  intros Hk Ha H. apply Z.div_lt_upper_bound; [apply pow2_pos; lia|].
  rewrite <- Z.pow_add_r by lia. replace (k + a) with (a + k) by lia. assumption.
Qed.

Lemma div_pow2_lower m a k :
  0 <= k -> 0 <= a -> 2 ^ (a + k) <= m -> 2 ^ a <= m / 2 ^ k.
Proof.
  intros Hk Ha H. apply Z.div_le_lower_bound; [apply pow2_pos; lia|].
  rewrite <- Z.pow_add_r by lia. replace (k + a) with (a + k) by lia. assumption.
Qed.

(** Rounding an integer mantissa whose exponent lies at or below the
    canonical one: the mantissa is truncated to the canonical exponent [E1]
    and incremented by [b]. *)
Lemma binary_round_aux_spec s (m : positive) e :
  let E1 := fexp prec emax (Zpos (digits2_pos m) + e) in
  let k := E1 - e in
  0 <= k ->
  exists b, (b = 0 \/ b = 1) /\
    (b = 1 -> 0 < k /\ 2 ^ k <= 2 * (Zpos m mod 2 ^ k)) /\
    (b = 0 -> 2 * (Zpos m mod 2 ^ k) <= 2 ^ k) /\
    rounded_to s (Zpos m / 2 ^ k + b) E1
      (binary_round_aux prec emax s (Zpos m) e loc_Exact).
Proof.
  intros E1 k Hk.
  destruct (round_shr_spec (Zpos m) e k) as (b & Hb & Hb1 & Hb0 & He' & Hn);
    [lia | assumption |].
  exists b. split; [assumption|]. split; [assumption|]. split; [assumption|].
  unfold binary_round_aux. unfold shr_fexp at 1.
  change (Zdigits2 (Z.pos m)) with (Zpos (digits2_pos m)).
  fold E1. fold k.
  destruct (shr (shr_record_of_loc (Z.pos m) loc_Exact) e k) as [mrs' e'] eqn:Hshr.
  simpl in He', Hn. subst e'. rewrite Hn. clear Hn Hshr mrs'.
  replace (e + k) with E1 by (unfold k; lia).
  assert (Hq0 : 0 <= Zpos m / 2 ^ k) by (apply Z.div_pos; [lia | apply pow2_pos; lia]).
  set (q := Zpos m / 2 ^ k) in *.
  pose proof (digits2_bounds m) as [Hlo Hhi].
  set (d := Zpos (digits2_pos m)) in *.
  assert (Hd : 0 < d) by (unfold d; lia).
  assert (HE1 : E1 = Z.max (d + e - 24) (-149)) by reflexivity.
  assert (Hkdef : k = E1 - e) by reflexivity.
  clearbody E1 k.
  destruct (Z.eq_dec k 0) as [Hk0|Hk0].
  - (* no truncation *)
    assert (b = 0) by lia. subst b.
    assert (q = Zpos m) by (unfold q; rewrite Hk0; apply Z.div_1_r).
    rewrite Z.add_0_r, H.
    rewrite shr_fexp_exact_0 by (simpl Zdigits2; fold d; rewrite fexp_eq; lia).
    simpl shr_m. right. exists m, E1. rewrite Z.sub_diag.
    split; [lia|]. split; [simpl; lia|]. split; [|reflexivity].
    unfold canonical. fold d. rewrite fexp_eq. lia.
  - destruct (Z_le_gt_dec (-149) (d + e - 24)) as [Hnorm|Hsub].
    + (* normal range: the quotient has 24 digits *)
      assert (Hkd : k = d - 24) by lia.
      assert (Hq : 2 ^ 23 <= q < 2 ^ 24).
      { split.
        - apply div_pow2_lower; try lia.
          replace (23 + k) with (d - 1) by lia. assumption.
        - apply div_pow2_bounds; try lia.
          replace (24 + k) with d by lia. assumption. }
      destruct (Z.eq_dec (q + b) (2 ^ 24)) as [Hcarry|Hnocarry].
      * rewrite Hcarry.
        rewrite shr_fexp_exact_1;
          [|lia|rewrite (Zdigits2_unique (2 ^ 24) 25) by (simpl; lia);
                 rewrite fexp_eq; lia].
        simpl shr_m. change (2 ^ 24 / 2) with (Zpos 8388608).
        right. exists 8388608%positive, (E1 + 1).
        split; [lia|]. split; [replace (E1 + 1 - E1) with 1 by lia; reflexivity|].
        split; [|reflexivity].
        unfold canonical. simpl digits2_pos. rewrite fexp_eq. lia.
      * assert (Hn : 2 ^ 23 <= q + b < 2 ^ 24) by lia.
        rewrite shr_fexp_exact_0
          by (rewrite (Zdigits2_unique (q + b) 24) by (simpl; lia); rewrite fexp_eq; lia).
        simpl shr_m. destruct (q + b) as [|n|n] eqn:En; try lia.
        right. exists n, E1. rewrite Z.sub_diag.
        split; [lia|]. split; [simpl; lia|]. split; [|reflexivity].
        unfold canonical.
        change (Z.pos (digits2_pos n)) with (Zdigits2 (Zpos n)).
        rewrite (Zdigits2_unique (Zpos n) 24) by (simpl; lia). rewrite fexp_eq. lia.
    + (* subnormal range *)
      assert (HE : E1 = -149) by lia.
      assert (Hq : q < 2 ^ 23).
      { apply div_pow2_bounds; try lia.
        eapply Z.lt_le_trans; [exact Hhi|]. apply pow2_le. lia. }
      destruct (q + b) as [|n|n] eqn:En; try lia.
      * rewrite shr_fexp_exact_0 by (simpl Zdigits2; rewrite fexp_eq; lia).
        simpl shr_m. left. auto.
      * pose proof (digits2_bounds n) as [Hnlo Hnhi].
        assert (Hdn : Zpos (digits2_pos n) <= 24).
        { assert (Zpos (digits2_pos n) - 1 < 24); [|lia].
          apply pow2_lt_inv; [lia|]. change (2 ^ 24) with 16777216.
          change (2 ^ 23) with 8388608 in Hq. lia. }
        rewrite shr_fexp_exact_0 by (simpl Zdigits2; rewrite fexp_eq; lia).
        simpl shr_m. right. exists n, E1. rewrite Z.sub_diag.
        split; [lia|]. split; [simpl; lia|]. split; [|reflexivity].
        unfold canonical. rewrite fexp_eq. lia.
Qed.

Lemma pow2_add a b : 0 <= a -> 0 <= b -> 2 ^ (a + b) = 2 ^ a * 2 ^ b.
Proof. intros. apply Z.pow_add_r; assumption. Qed.

Lemma iter_xO_pow m d : Zpos (Pos.iter xO m d) = Zpos m * 2 ^ Zpos d.
Proof.
  induction d as [|d IH] using Pos.peano_ind.
  - simpl. lia.
  - rewrite Pos.iter_succ, Pos2Z.inj_xO, IH, Pos2Z.inj_succ.
    rewrite Z.pow_succ_r by lia. lia.
Qed.

Lemma shl_align_spec m e e' :
  exists m' e'', shl_align m e e' = (m', e'') /\
    e'' = Z.min e e' /\ Zpos m' = Zpos m * 2 ^ (e - e'').
Proof.
  unfold shl_align. destruct (e' - e) as [|d|d] eqn:Hd.
  - exists m, e. split; [reflexivity|]. split; [lia|].
    rewrite Z.sub_diag. simpl. lia.
  - exists m, e. split; [reflexivity|]. split; [lia|].
    rewrite Z.sub_diag. simpl. lia.
  - exists (Pos.iter xO m d), e'. split; [reflexivity|]. split; [lia|].
    rewrite iter_xO_pow. replace (e - e') with (Zpos d) by lia. reflexivity.
Qed.

(** digits of a mantissa shifted left *)
Lemma digits2_shift (m m' : positive) j :
  0 <= j -> Zpos m' = Zpos m * 2 ^ j ->
  Zpos (digits2_pos m') = Zpos (digits2_pos m) + j.
Proof.
  intros Hj H. change (Zpos (digits2_pos m')) with (Zdigits2 (Zpos m')).
  pose proof (digits2_bounds m) as [Hlo Hhi].
  pose proof (pow2_pos j Hj).
  apply Zdigits2_unique; [lia|]. rewrite H.
  replace (Z.pos (digits2_pos m) + j - 1) with ((Z.pos (digits2_pos m) - 1) + j) by lia.
  rewrite !pow2_add by lia. nia.
Qed.

(** [binary_round] aligns the mantissa to the canonical exponent when it is
    too short and rounds it otherwise. *)
Lemma binary_round_spec s (m : positive) e :
  let E1 := fexp prec emax (Zpos (digits2_pos m) + e) in
  exists (mz : positive) ez b,
    ez = Z.min e E1 /\ Zpos mz = Zpos m * 2 ^ (e - ez) /\
    (b = 0 \/ b = 1) /\
    (b = 1 -> 0 < E1 - ez /\ 2 ^ (E1 - ez) <= 2 * (Zpos mz mod 2 ^ (E1 - ez))) /\
    (b = 0 -> 2 * (Zpos mz mod 2 ^ (E1 - ez)) <= 2 ^ (E1 - ez)) /\
    rounded_to s (Zpos mz / 2 ^ (E1 - ez) + b) E1 (binary_round prec emax s m e).
Proof.
  intros E1. unfold binary_round. fold E1.
  destruct (shl_align_spec m e E1) as (mz & ez & Hal & Hez & Hmz).
  rewrite Hal.
  assert (Hd : Zpos (digits2_pos mz) + ez = Zpos (digits2_pos m) + e).
  { rewrite (digits2_shift m mz (e - ez)) by (assumption || lia). lia. }
  pose proof (binary_round_aux_spec s mz ez) as Haux. simpl in Haux.
  rewrite Hd in Haux. fold E1 in Haux.
  destruct Haux as (b & Hb & Hb1 & Hb0 & Hr); [lia|].
  exists mz, ez, b. auto 10.
Qed.



Lemma round_scaled N ez E1 b S :
  0 <= N -> 0 <= E1 - ez -> 0 <= ez + S ->
  (b = 0 \/ b = 1) ->
  (b = 1 -> 0 < E1 - ez /\ 2 ^ (E1 - ez) <= 2 * (N mod 2 ^ (E1 - ez))) ->
  (b = 0 -> 2 * (N mod 2 ^ (E1 - ez)) <= 2 ^ (E1 - ez)) ->
  let n := N / 2 ^ (E1 - ez) + b in
  0 <= n /\
  (forall W, N * 2 ^ (ez + S) <= W * 2 ^ (E1 + S) -> n <= W) /\
  2 * (n * 2 ^ (E1 + S)) <= 2 * (N * 2 ^ (ez + S)) + 2 ^ (E1 + S) /\
  (E1 = ez -> n = N).
Proof.
  intros HN Hk HS Hb Hb1 Hb0 n.
  set (k := E1 - ez) in *.
  assert (Hpk : 0 < 2 ^ k) by (apply pow2_pos; lia).
  assert (Hpc : 0 < 2 ^ (ez + S)) by (apply pow2_pos; lia).
  assert (HE : 2 ^ (E1 + S) = 2 ^ k * 2 ^ (ez + S)).
  { replace (E1 + S) with (k + (ez + S)) by (unfold k; lia). apply pow2_add; lia. }
  pose proof (Z.div_mod N (2 ^ k) ltac:(lia)) as Hdm.
  pose proof (Z.mod_pos_bound N (2 ^ k) Hpk) as Hrem.
  set (q := N / 2 ^ k) in *. set (rem := N mod 2 ^ k) in *.
  set (c := 2 ^ (ez + S)) in *. set (pk := 2 ^ k) in *.
  assert (Hq : 0 <= q) by (apply Z.div_pos; lia).
  subst n. rewrite HE. repeat split.
  - lia.
  - intros W HW.
    assert (HNW : N <= W * pk) by nia.
    destruct Hb as [->| ->].
    + rewrite Z.add_0_r. nia.
    + destruct (Hb1 eq_refl) as [_ Hhalf]. nia.
  - destruct Hb as [->| ->].
    + nia.
    + destruct (Hb1 eq_refl) as [_ Hhalf]. nia.
  - intros ->. assert (k = 0) by (unfold k; lia).
    assert (pk = 1) by (unfold pk; rewrite H; reflexivity).
    assert (b = 0) by (destruct Hb as [->| ->]; [reflexivity|];
                       destruct (Hb1 eq_refl); lia).
    nia.
Qed.

Lemma canonical_digits m e :
  canonical m e ->
  Zpos (digits2_pos m) <= 24 /\ -149 <= e /\
  (-149 < e -> Zpos (digits2_pos m) = 24).
Proof. unfold canonical. rewrite fexp_eq. lia. Qed.

Lemma canonical_mantissa_bound m e : canonical m e -> Zpos m < 2 ^ 24.
Proof.
  intros H. apply canonical_digits in H as (Hd & _).
  pose proof (digits2_bounds m) as [_ Hhi].
  eapply Z.lt_le_trans; [exact Hhi|]. apply pow2_le. lia.
Qed.

(** a canonical datum of value at most [2^c] has its exponent at most
    [c - 23], or is subnormal *)
Lemma canonical_exp_bound S m e c :
  canonical m e -> 0 <= e + S -> 0 <= c + S ->
  pv S m e <= 2 ^ (c + S) -> e <= Z.max (c - 23) (-149).
Proof.
  intros Hc HeS HcS Hv. apply canonical_digits in Hc as (Hd & He & Hn).
  destruct (Z_le_gt_dec e (-149)); [lia|].
  specialize (Hn ltac:(lia)).
  pose proof (digits2_bounds m) as [Hlo _]. rewrite Hn in Hlo.
  unfold pv in Hv.
  assert (2 ^ (23 + (e + S)) <= 2 ^ (c + S)).
  { rewrite pow2_add by lia. simpl (24 - 1) in Hlo.
    pose proof (pow2_pos (e + S) HeS). nia. }
  assert (23 + (e + S) <= c + S); [|lia].
  destruct (Z_le_gt_dec (23 + (e + S)) (c + S)); [assumption|].
  exfalso. pose proof (pow2_lt (c + S) (23 + (e + S)) ltac:(lia)). lia.
Qed.

(** the datum produced by a rounding has the value of the rounded mantissa *)
Lemma rounded_to_value S s n E res c :
  rounded_to s n E res -> 0 <= E + S -> 0 <= c + S -> c <= 127 ->
  n * 2 ^ (E + S) <= 2 ^ (c + S) ->
  (n = 0 /\ res = S754_zero s) \/
  (exists m e, res = S754_finite s m e /\ canonical m e /\ e <= emax - prec /\
     pv S m e = n * 2 ^ (E + S)).
Proof.
  intros [[-> ->]|(m & e & He & Hn & Hcan & ->)] HE Hc Hc127 Hle.
  - left. auto.
  - right.
    assert (Hv : pv S m e = n * 2 ^ (E + S)).
    { unfold pv. rewrite Hn. replace (e + S) with ((e - E) + (E + S)) by lia.
      rewrite pow2_add by lia. lia. }
    assert (e <= Z.max (c - 23) (-149)).
    { apply (canonical_exp_bound S m e c); try assumption; lia. }
    assert (Hb : e <= emax - prec) by (unfold emax, prec; lia).
    exists m, e. apply Z.leb_le in Hb as Hb'. rewrite Hb'. auto.
Qed.

Lemma pv_pos S m e : 0 <= e + S -> 0 < pv S m e.
Proof. intros H. unfold pv. pose proof (pow2_pos (e + S) H). nia. Qed.

Lemma pv_digits S m e :
  0 <= e + S ->
  2 ^ (Zpos (digits2_pos m) - 1 + (e + S)) <= pv S m e
    < 2 ^ (Zpos (digits2_pos m) + (e + S)).
Proof.
  intros H. unfold pv. pose proof (digits2_bounds m) as [Hlo Hhi].
  pose proof (pow2_pos (e + S) H).
  assert (0 < Zpos (digits2_pos m)) by lia.
  rewrite (pow2_add (Zpos (digits2_pos m) - 1) (e + S)) by lia.
  rewrite (pow2_add (Zpos (digits2_pos m)) (e + S)) by lia.
  nia.
Qed.

(** the exponent a product is rounded at never lies above the exponent of
    the exact product *)
Lemma mul_aligned ma ea mb eb :
  canonical ma ea -> canonical mb eb ->
  ea + eb <= fexp prec emax (Zpos (digits2_pos (ma * mb)) + (ea + eb)).
Proof.
  intros Ha Hb. apply canonical_digits in Ha as (Hda & Hea & Hna).
  apply canonical_digits in Hb as (Hdb & Heb & Hnb).
  pose proof (digits2_bounds ma) as [Halo _].
  pose proof (digits2_bounds mb) as [Hblo _].
  pose proof (digits2_bounds (ma * mb)) as [_ Hhi].
  set (da := Zpos (digits2_pos ma)) in *.
  set (db := Zpos (digits2_pos mb)) in *.
  set (dm := Zpos (digits2_pos (ma * mb))) in *.
  assert (0 < da /\ 0 < db) as [? ?] by (unfold da, db; lia).
  assert (Hd : da + db - 2 < dm).
  { apply pow2_lt_inv; [unfold dm; lia|].
    replace (da + db - 2) with ((da - 1) + (db - 1)) by lia.
    rewrite pow2_add by lia. rewrite Pos2Z.inj_mul in Hhi.
    pose proof (pow2_pos (da - 1)). pose proof (pow2_pos (db - 1)). nia. }
  rewrite fexp_eq. lia.
Qed.

(** Rounded product of two positive canonical data, on the scale [S]:
    the result is [n * 2^E1], it does not exceed any multiple of [2^E1]
    above the exact product, and it exceeds the exact product by at most
    half of [2^E1]. *)
Lemma mul_round S ma ea mb eb :
  canonical ma ea -> canonical mb eb -> 149 <= S ->
  let A := pv S ma ea in
  let B := pv S mb eb in
  exists n E1,
    -149 <= E1 /\ 0 <= n /\
    rounded_to false n E1
      (SFmul prec emax (S754_finite false ma ea) (S754_finite false mb eb)) /\
    (forall W, A * B <= W * 2 ^ (E1 + 2 * S) -> n <= W) /\
    2 * (n * 2 ^ (E1 + 2 * S)) <= 2 * (A * B) + 2 ^ (E1 + 2 * S) /\
    (forall c, A * B < 2 ^ (c + 2 * S) -> E1 <= Z.max (c - 24) (-149)) /\
    (forall c, 0 <= c + 2 * S -> 2 ^ (c + 2 * S) <= A * B -> c - 23 <= E1).
Proof.
  intros Ha Hb HS A B.
  pose proof (mul_aligned ma ea mb eb Ha Hb) as Hal.
  pose proof (canonical_digits _ _ Ha) as (_ & Hea & _).
  pose proof (canonical_digits _ _ Hb) as (_ & Heb & _).
  set (E1 := fexp prec emax (Zpos (digits2_pos (ma * mb)) + (ea + eb))) in *.
  destruct (binary_round_aux_spec false (ma * mb) (ea + eb))
    as (b & Hb01 & Hb1 & Hb0 & Hr); [fold E1; lia|].
  fold E1 in Hb1, Hb0, Hr.
  destruct (round_scaled (Zpos (ma * mb)) (ea + eb) E1 b (2 * S))
    as (Hn & Hgrid & Herr & _); try assumption; try lia.
  assert (HAB : Zpos (ma * mb) * 2 ^ (ea + eb + 2 * S) = A * B).
  { unfold A, B, pv. rewrite Pos2Z.inj_mul.
    replace (ea + eb + 2 * S) with ((ea + S) + (eb + S)) by lia.
    rewrite pow2_add by lia. ring. }
  rewrite HAB in Hgrid, Herr.
  assert (HE1 : E1 = Z.max (Zpos (digits2_pos (ma * mb)) + (ea + eb) - 24) (-149))
    by reflexivity.
  pose proof (pv_digits (2 * S) (ma * mb) (ea + eb) ltac:(lia)) as [Hlo Hhi].
  unfold pv in Hlo, Hhi. rewrite HAB in Hlo, Hhi.
  set (dm := Zpos (digits2_pos (ma * mb))) in *.
  assert (0 < dm) by (unfold dm; lia).
  exists (Zpos (ma * mb) / 2 ^ (E1 - (ea + eb)) + b), E1.
  split; [lia|]. split; [assumption|]. split; [exact Hr|].
  split; [exact Hgrid|]. split; [exact Herr|]. split.
  - intros c Hc.
    assert (dm - 1 + (ea + eb + 2 * S) < c + 2 * S); [|lia].
    destruct (Z_lt_le_dec (c + 2 * S) 0) as [Hneg|Hnn].
    + rewrite Z.pow_neg_r in Hc by assumption.
      pose proof (pow2_pos (dm - 1 + (ea + eb + 2 * S)) ltac:(lia)). lia.
    + apply pow2_lt_inv; [assumption|]. lia.
  - intros c Hc0 Hc.
    assert (c + 2 * S < dm + (ea + eb + 2 * S)); [|lia].
    apply pow2_lt_inv; [lia|]. lia.
Qed.

Lemma nonneg_value_nonneg S x V : 0 <= S + -149 -> nonneg_value S x V -> 0 <= V.
Proof.
  intros HS [[-> _]|(m & e & _ & Hc & _ & ->)]; [lia|].
  apply canonical_digits in Hc as (_ & He & _).
  pose proof (pv_pos S m e ltac:(lia)). lia.
Qed.

Lemma nonneg_value_zero S s : nonneg_value S (S754_zero s) 0.
Proof. left. eauto. Qed.

(** [g * x] for [g <= 4]: the rounded product is at most [4 * x], which
    is a datum itself. *)
Lemma mul_le_four S g x G X :
  149 <= S ->
  nonneg_value S g G -> nonneg_value S x X ->
  G <= 4 * 2 ^ S -> X <= 2 ^ S ->
  exists P, nonneg_value S (SFmul prec emax g x) P /\ P <= 4 * X.
Proof.
  intros HS Hg Hx HG HX.
  pose proof (nonneg_value_nonneg S x X ltac:(lia) Hx) as HX0.
  destruct Hg as [[-> [sg ->]]|(mg & eg & -> & Hcg & Hbg & ->)];
    destruct Hx as [[-> [sx ->]]|(mx & ex & -> & Hcx & Hbx & ->)];
    try (exists 0; split; [apply nonneg_value_zero | lia]).
  destruct (mul_round S mg eg mx ex Hcg Hcx HS)
    as (n & E1 & HE1 & Hn & Hr & Hgrid & _ & Hup & _).
  pose proof (canonical_digits _ _ Hcx) as (Hdx & Hex & _).
  pose proof (pv_digits S mx ex ltac:(lia)) as [_ HXhi].
  set (X := pv S mx ex) in *. set (G := pv S mg eg) in *.
  set (dx := Zpos (digits2_pos mx)) in *.
  assert (Hdx0 : 0 < dx) by (unfold dx; lia).
  assert (HU : 0 < 2 ^ S) by (apply pow2_pos; lia).
  assert (HXdef : X = Zpos mx * 2 ^ (ex + S)) by reflexivity.
  pose proof (pv_pos S mg eg ltac:(apply canonical_digits in Hcg; lia)) as HG0.
  fold G in HG0. clearbody X G.
  assert (HE1x : E1 <= ex + 2).
  { assert (E1 <= Z.max (dx + ex + 2 - 24) (-149)); [|lia].
    apply Hup. replace (dx + ex + 2 + 2 * S) with ((dx + (ex + S)) + (2 + S)) by lia.
    rewrite pow2_add by lia. rewrite (pow2_add 2 S) by lia.
    change (2 ^ 2) with 4. nia. }
  assert (HW : n <= Zpos mx * 2 ^ (ex + 2 - E1)).
  { apply Hgrid. rewrite <- Z.mul_assoc, <- pow2_add by lia.
    replace (ex + 2 - E1 + (E1 + 2 * S)) with ((ex + S) + (2 + S)) by lia.
    rewrite pow2_add by lia. rewrite (pow2_add 2 S) by lia.
    change (2 ^ 2) with 4. nia. }
  assert (HY : n * 2 ^ (E1 + S) <= 4 * X).
  { assert (H4X : 4 * X = Zpos mx * 2 ^ (ex + 2 - E1) * 2 ^ (E1 + S)).
    { rewrite <- Z.mul_assoc, <- pow2_add by lia.
      replace (ex + 2 - E1 + (E1 + S)) with (2 + (ex + S)) by lia.
      rewrite pow2_add by lia. change (2 ^ 2) with 4. rewrite HXdef. ring. }
    rewrite H4X. apply Z.mul_le_mono_nonneg_r; [|assumption].
    apply Z.lt_le_incl, pow2_pos. lia. }
  exists (n * 2 ^ (E1 + S)). split; [|assumption].
  destruct (rounded_to_value S false n E1 _ 2 Hr) as [[-> ->]|(m & e & -> & Hc & Hb & Hv)];
    try lia.
  - rewrite (pow2_add 2 S) by lia. change (2 ^ 2) with 4. lia.
  - rewrite Z.mul_0_l. apply nonneg_value_zero.
  - right. exists m, e. auto.
Qed.




Lemma half_le_exp S m e :
  canonical m e -> 0 <= e + S -> 0 <= S -> 2 ^ S <= 2 * pv S m e -> -24 <= e.
Proof.
  intros Hc He HS Hh. apply canonical_digits in Hc as (Hd & _).
  pose proof (pv_digits S m e He) as [_ Hhi].
  assert (pv S m e < 2 ^ (24 + (e + S))).
  { eapply Z.lt_le_trans; [exact Hhi|]. apply pow2_le. lia. }
  assert (2 ^ (25 + (e + S)) = 2 * 2 ^ (24 + (e + S))).
  { replace (25 + (e + S)) with (1 + (24 + (e + S))) by lia.
    rewrite pow2_add by lia. reflexivity. }
  assert (S < 25 + (e + S)); [|lia].
  apply pow2_lt_inv; lia.
Qed.

(** Rounding a positive integer mantissa [d] at exponent [ez], of value
    below [2^c]: the result exceeds the value by at most half a unit in
    the last place of that binade, and is exact when [ez] already lies at
    or above the canonical exponent of the binade. *)
Lemma binary_round_value S d ez c :
  149 <= S -> -149 <= ez -> c <= 126 -> -149 <= c ->
  pv S d ez < 2 ^ (c + S) ->
  exists Q, nonneg_value S (binary_round prec emax false d ez) Q /\
    2 * Q <= 2 * pv S d ez + 2 ^ (Z.max (c - 24) (-149) + S) /\
    (Z.max (c - 24) (-149) <= ez -> Q = pv S d ez).
Proof.
  intros HS Hez Hc127 Hc0 HV.
  destruct (binary_round_spec false d ez)
    as (mz & ez' & b & Hez' & Hmz & Hb01 & Hb1 & Hb0 & Hr).
  set (E1 := fexp prec emax (Zpos (digits2_pos d) + ez)) in *.
  assert (HE1 : E1 = Z.max (Zpos (digits2_pos d) + ez - 24) (-149)) by reflexivity.
  clearbody E1.
  assert (Hk : 0 <= E1 - ez') by (clear - Hez'; lia).
  assert (HezS : 0 <= ez' + S) by (clear - Hez' Hez HS HE1; lia).
  destruct (round_scaled (Zpos mz) ez' E1 b S (Pos2Z.is_nonneg mz)
              Hk HezS Hb01 Hb1 Hb0) as (Hn & _ & Herr & Hexact).
  set (n := Zpos mz / 2 ^ (E1 - ez') + b) in *. clearbody n.
  clear Hb1 Hb0 Hb01.
  assert (HVz : Zpos mz * 2 ^ (ez' + S) = pv S d ez).
  { unfold pv. rewrite Hmz, <- Z.mul_assoc, <- pow2_add by (clear - Hez' Hez HS HE1; lia).
    do 2 f_equal. clear. lia. }
  rewrite HVz in Herr. clear Hmz.
  pose proof (pv_digits S d ez ltac:(clear - Hez HS; lia)) as [HDlo _].
  assert (Hdd : Zpos (digits2_pos d) + ez <= c).
  { assert (Zpos (digits2_pos d) - 1 + (ez + S) < c + S); [|clear - H; lia].
    apply pow2_lt_inv; [clear - Hc0 HS; lia|].
    clear - HDlo HV. lia. }
  assert (HE1c : E1 <= Z.max (c - 24) (-149)) by (clear - HE1 Hdd; lia).
  assert (HpE : 2 ^ (E1 + S) <= 2 ^ (Z.max (c - 24) (-149) + S)).
  { apply pow2_le. clear - HE1c HE1 HS. lia. }
  exists (n * 2 ^ (E1 + S)). split; [|split].
  - assert (Hle : n * 2 ^ (E1 + S) <= 2 ^ (c + 1 + S)).
    { assert (2 ^ (E1 + S) <= 2 ^ (c + S)).
      { apply pow2_le. clear - HE1c HE1 HS Hc0. lia. }
      replace (c + 1 + S) with (1 + (c + S)) by (clear; lia).
      rewrite (pow2_add 1 (c + S)) by (clear - Hc0 HS; lia). change (2 ^ 1) with 2.
      clear - HpE Herr HV H. lia. }
    destruct (rounded_to_value S false n E1 _ (c + 1) Hr)
      as [[-> ->]|(m & e & -> & Hc' & Hb' & Hv)];
      try assumption; try (clear - HE1 HS Hc127 Hc0; lia).
    + rewrite Z.mul_0_l. apply nonneg_value_zero.
    + right. exists m, e. auto.
  - clear - HpE Herr. lia.
  - intros Hex. assert (HEz : E1 = ez') by (clear - Hex Hez' HE1c; lia).
    rewrite (Hexact HEz), HEz. exact HVz.
Qed.

Lemma one_value S : 23 <= S -> nonneg_value S one (2 ^ S).
Proof.
  intros HS. right. exists 8388608%positive, (-23). split; [reflexivity|].
  split; [reflexivity|]. split; [unfold emax, prec; lia|].
  unfold pv. change (Zpos 8388608) with (2 ^ 23).
  rewrite <- pow2_add by lia. f_equal. lia.
Qed.

(** [1 - x] for [0 <= x <= 1]: exact when [x >= 1/2], and otherwise above
    the exact difference by at most [2^(-25)]. *)
Lemma sub_one_spec S x X :
  149 <= S ->
  nonneg_value S x X -> X <= 2 ^ S ->
  exists Q, nonneg_value S (SFsub prec emax one x) Q /\
    Q <= 2 ^ S - X + 2 ^ (S - 25) /\
    (2 ^ S <= 2 * X -> Q <= 2 ^ S - X).
Proof.
  intros HS Hx HX.
  assert (HU : 0 < 2 ^ S) by (apply pow2_pos; lia).
  assert (Ha : 0 < 2 ^ (S - 25)) by (apply pow2_pos; lia).
  destruct Hx as [[-> [sx ->]]|(mx & ex & -> & Hcx & Hbx & ->)].
  - exists (2 ^ S). split; [apply one_value; lia | lia].
  - pose proof (canonical_digits _ _ Hcx) as (Hdx & Hex & _).
    pose proof (pv_pos S mx ex ltac:(lia)) as HX0.
    assert (HXdef : pv S mx ex = Zpos mx * 2 ^ (ex + S)) by reflexivity.
    pose proof (half_le_exp S mx ex Hcx ltac:(lia) ltac:(lia)) as Hex24.
    set (X := pv S mx ex) in *. clearbody X.
    unfold one, SFsub. set (ez := Z.min (-23) ex).
    destruct (shl_align_spec 8388608 (-23) ez) as (m1 & e1 & H1 & He1 & Hm1).
    destruct (shl_align_spec mx ex ez) as (m2 & e2 & H2 & He2 & Hm2).
    rewrite H1, H2. cbn [fst cond_Zopp].
    assert (e1 = ez) by (unfold ez in *; lia). subst e1.
    assert (e2 = ez) by (unfold ez in *; lia). subst e2.
    assert (Hez : -149 <= ez <= -23) by (unfold ez; lia).
    assert (Hezdef : ez = Z.min (-23) ex) by reflexivity.
    clearbody ez.
    assert (Hc : 0 < 2 ^ (ez + S)) by (apply pow2_pos; lia).
    assert (HV1 : Zpos m1 * 2 ^ (ez + S) = 2 ^ S).
    { rewrite Hm1. change (Zpos 8388608) with (2 ^ 23).
      rewrite <- !pow2_add by lia. f_equal. lia. }
    assert (HV2 : Zpos m2 * 2 ^ (ez + S) = X).
    { rewrite Hm2, HXdef. rewrite <- Z.mul_assoc, <- pow2_add by lia.
      do 2 f_equal. lia. }
    clear H1 H2 Hm1 Hm2.
    destruct (Zpos m1 - Zpos m2) as [|d|d] eqn:HD.
    + (* x = 1 *)
      exists 0. split; [apply nonneg_value_zero|]. nia.
    + assert (HVD : pv S d ez = 2 ^ S - X) by (unfold pv; nia).
      cbn [binary_normalize].
      destruct (binary_round_value S d ez 0) as (Q & HQ & Herr & Hexact);
        try lia.
      { rewrite HVD, Z.add_0_l. lia. }
      rewrite HVD in Herr, Hexact. change (Z.max (0 - 24) (-149)) with (-24) in *.
      assert (Hp24 : 2 ^ (-24 + S) = 2 * 2 ^ (S - 25)).
      { replace (-24 + S) with (1 + (S - 25)) by lia. rewrite pow2_add by lia.
        reflexivity. }
      exists Q. split; [assumption|]. split; [lia|].
      intros Hhalf. specialize (Hex24 Hhalf). rewrite Hexact; lia.
    + (* x > 1 is excluded *)
      exfalso. assert (Zpos m1 < Zpos m2) by lia. nia.
Qed.

(** A product whose exact value lies below [1 + 2^(-24)], half-way to the
    successor of 1, is rounded to at most 1. *)
Lemma mul_near_one S p q P Q :
  149 <= S ->
  nonneg_value S p P -> nonneg_value S q Q ->
  P * Q * 2 ^ 24 < (2 ^ 24 + 1) * (2 ^ S * 2 ^ S) ->
  exists Y, nonneg_value S (SFmul prec emax p q) Y /\ Y <= 2 ^ S.
Proof.
  intros HS Hp Hq HPQ.
  assert (HU : 0 < 2 ^ S) by (apply pow2_pos; lia).
  destruct Hp as [[-> [sp ->]]|(mp & ep & -> & Hcp & Hbp & ->)];
    destruct Hq as [[-> [sq ->]]|(mq & eq & -> & Hcq & Hbq & ->)];
    try (exists 0; split; [apply nonneg_value_zero | lia]).
  destruct (mul_round S mp ep mq eq Hcp Hcq HS)
    as (n & E1 & HE1 & Hn & Hr & Hgrid & Herr & Hup & Hlow).
  pose proof (pv_pos S mp ep ltac:(apply canonical_digits in Hcp; lia)) as HP0.
  pose proof (pv_pos S mq eq ltac:(apply canonical_digits in Hcq; lia)) as HQ0.
  set (P := pv S mp ep) in *. set (Q := pv S mq eq) in *. clearbody P Q.
  assert (HUU : 2 ^ (2 * S) = 2 ^ S * 2 ^ S).
  { replace (2 * S) with (S + S) by lia. apply pow2_add; lia. }
  assert (HE1u : E1 <= -23).
  { assert (E1 <= Z.max (1 - 24) (-149)); [|lia]. apply Hup.
    rewrite (pow2_add 1 (2 * S)) by lia. rewrite HUU. change (2 ^ 1) with 2.
    change (2 ^ 24) with 16777216 in HPQ. nia. }
  assert (HY : n * 2 ^ (E1 + S) <= 2 ^ S).
  { destruct (Z_le_gt_dec (P * Q) (2 ^ S * 2 ^ S)) as [Hle|Hgt].
    - assert (HnW : n <= 2 ^ (- E1)).
      { apply Hgrid. rewrite <- pow2_add by lia.
        replace (- E1 + (E1 + 2 * S)) with (2 * S) by lia. rewrite HUU. lia. }
      assert (HS' : 2 ^ S = 2 ^ (- E1) * 2 ^ (E1 + S)).
      { rewrite <- pow2_add by lia. f_equal. lia. }
      rewrite HS'. apply Z.mul_le_mono_nonneg_r; [|assumption].
      apply Z.lt_le_incl, pow2_pos. lia.
    - assert (HE1l : 0 - 23 <= E1).
      { apply Hlow; [lia|]. rewrite Z.add_0_l, HUU. lia. }
      assert (E1 = -23) by lia. subst E1.
      clear Hgrid Hup Hlow.
      assert (Hc0 : 0 < 2 ^ (2 * S - 24)) by (apply pow2_pos; lia).
      assert (H23 : 2 ^ (-23 + 2 * S) = 2 * 2 ^ (2 * S - 24)).
      { replace (-23 + 2 * S) with (1 + (2 * S - 24)) by lia.
        rewrite pow2_add by lia. reflexivity. }
      assert (H24 : 2 ^ S * 2 ^ S = 2 ^ 24 * 2 ^ (2 * S - 24)).
      { rewrite <- HUU, <- pow2_add by lia. f_equal. lia. }
      rewrite H23 in Herr. rewrite H24 in HPQ.
      change (2 ^ 24) with 16777216 in *.
      set (c0 := 2 ^ (2 * S - 24)) in *. clearbody c0.
      assert (Hn23 : n <= 8388608) by nia.
      assert (HS' : 2 ^ S = 8388608 * 2 ^ (-23 + S)).
      { change 8388608 with (2 ^ 23). rewrite <- pow2_add by lia. f_equal. lia. }
      rewrite HS'. apply Z.mul_le_mono_nonneg_r; [|assumption].
      apply Z.lt_le_incl, pow2_pos. lia. }
  exists (n * 2 ^ (E1 + S)). split; [|assumption].
  destruct (rounded_to_value S false n E1 _ 0 Hr)
    as [[-> ->]|(m & e & -> & Hc & Hb & Hv)]; try lia.
  - rewrite Z.add_0_l. assumption.
  - rewrite Z.mul_0_l. apply nonneg_value_zero.
  - right. exists m, e. auto.
Qed.


Lemma valid_finite s m e :
  valid (S754_finite s m e) = true <-> canonical m e /\ e <= emax - prec.
Proof.
  unfold valid, valid_binary, bounded, canonical_mantissa, canonical.
  rewrite andb_true_iff, Z.eqb_eq, Z.leb_le. reflexivity.
Qed.

Lemma compare_cont_Z (m c : positive) :
  Pos.compare_cont Eq m c = Z.compare (Zpos m) (Zpos c).
Proof. reflexivity. Qed.

(** [<=] on positive canonical data is [<=] on their values *)
Lemma leb_value S m e mc ec :
  canonical m e -> canonical mc ec -> 0 <= e + S -> 0 <= ec + S ->
  (leb (S754_finite false m e) (S754_finite false mc ec) = true
   <-> pv S m e <= pv S mc ec).
Proof.
  intros Hc Hcc HeS HecS.
  pose proof (canonical_mantissa_bound m e Hc) as Hm.
  pose proof (canonical_mantissa_bound mc ec Hcc) as Hmc.
  pose proof (canonical_digits _ _ Hc) as (_ & He & Hn).
  pose proof (canonical_digits _ _ Hcc) as (_ & Hec & Hnc).
  pose proof (digits2_bounds m) as [Hlo _].
  pose proof (digits2_bounds mc) as [Hclo _].
  change (2 ^ 24) with 16777216 in Hm, Hmc.
  unfold leb, SFleb, SFcompare, pv. rewrite compare_cont_Z.
  destruct (Z.compare_spec e ec) as [->|Hlt|Hgt].
  - pose proof (pow2_pos (ec + S) HecS) as Hp.
    destruct (Z.compare_spec (Zpos m) (Zpos mc)) as [E|E|E].
    + rewrite E. split; [intros _; lia | reflexivity].
    + split; [intros _; nia | reflexivity].
    + split; [discriminate | intros H; exfalso; nia].
  - split; [intros _ | reflexivity].
    rewrite (Hnc ltac:(lia)) in Hclo. change (2 ^ (24 - 1)) with 8388608 in Hclo.
    replace (ec + S) with ((ec - e) + (e + S)) by lia.
    rewrite (pow2_add (ec - e) (e + S)) by lia.
    pose proof (pow2_pos (e + S) HeS) as Hp.
    assert (2 ^ 1 <= 2 ^ (ec - e)) by (apply pow2_le; lia).
    change (2 ^ 1) with 2 in H.
    assert (16777216 <= Zpos mc * 2 ^ (ec - e)) by nia. nia.
  - split; [discriminate | intros H; exfalso].
    rewrite (Hn ltac:(lia)) in Hlo. change (2 ^ (24 - 1)) with 8388608 in Hlo.
    replace (e + S) with ((e - ec) + (ec + S)) in H by lia.
    rewrite (pow2_add (e - ec) (ec + S)) in H by lia.
    pose proof (pow2_pos (ec + S) HecS) as Hp.
    assert (H1 : 2 ^ 1 <= 2 ^ (e - ec)) by (apply pow2_le; lia).
    change (2 ^ 1) with 2 in H1.
    assert (16777216 <= Zpos m * 2 ^ (e - ec)) by nia. nia.
Qed.

Lemma canonical_pow2 ec : -149 <= ec -> canonical 8388608 ec.
Proof. intros H. unfold canonical. simpl digits2_pos. rewrite fexp_eq. lia. Qed.

Lemma pv_pow2 S ec : 0 <= ec + S -> pv S 8388608 ec = 2 ^ (ec + 23 + S).
Proof.
  intros H. unfold pv. change (Zpos 8388608) with (2 ^ 23).
  rewrite <- pow2_add by lia. f_equal. lia.
Qed.

(** data between 0 and a power of two, as C's comparisons decide it *)
Lemma between_value S x ec :
  149 <= S -> -149 <= ec ->
  valid x = true -> leb zero x = true ->
  leb x (S754_finite false 8388608 ec) = true ->
  exists X, nonneg_value S x X /\ X <= 2 ^ (ec + 23 + S).
Proof.
  intros HS Hec Hv H0 H1. destruct x as [s|s| |s m e].
  - exists 0. split; [apply nonneg_value_zero|].
    destruct (Z_lt_le_dec (ec + 23 + S) 0).
    + rewrite Z.pow_neg_r by assumption. lia.
    + apply Z.lt_le_incl, pow2_pos. assumption.
  - destruct s; discriminate.
  - discriminate.
  - destruct s; [discriminate|].
    apply valid_finite in Hv as [Hc Hb].
    pose proof (canonical_digits _ _ Hc) as (_ & He & _).
    exists (pv S m e). split.
    + right. exists m, e. auto.
    + rewrite <- pv_pow2 by lia.
      apply (leb_value S m e 8388608 ec); try assumption; try lia.
      apply canonical_pow2. lia.
Qed.

Lemma value_in_unit S y Y :
  149 <= S -> nonneg_value S y Y -> Y <= 2 ^ S ->
  in_unit y = true /\ valid y = true.
Proof.
  intros HS [[-> [s ->]]|(m & e & -> & Hc & Hb & ->)] HY.
  - split; reflexivity.
  - pose proof (canonical_digits _ _ Hc) as (_ & He & _).
    split; [|apply valid_finite; auto].
    unfold in_unit. apply andb_true_iff. split; [reflexivity|].
    apply (leb_value S m e 8388608 (-23)); try assumption; try lia.
    { apply canonical_pow2. lia. }
    rewrite pv_pow2 by lia. replace (-23 + 23 + S) with S by lia. assumption.
Qed.


Lemma of_int_1 : of_int 1 = one.
Proof. reflexivity. Qed.

(** the arithmetic heart of the closure: on the scale [U = 2^25 * a], with
    [P <= 4 X] and [Q] the rounded [1 - X], the exact product [P * Q] stays
    below [1 + 2^(-24)] *)
Lemma logistic_product_bound U a X P Q :
  0 < a -> U = 33554432 * a ->
  0 <= X <= U -> 0 <= P <= 4 * X -> 0 <= Q ->
  Q <= U - X + a -> (U <= 2 * X -> Q <= U - X) ->
  P * Q * 16777216 < 16777217 * (U * U).
Proof.
  intros Ha HU HX HP HQ HQ1 HQ2.
  assert (HPQ : P * Q <= 4 * X * Q) by nia.
  destruct (Z_le_gt_dec U (2 * X)) as [Hhi|Hlo].
  - specialize (HQ2 Hhi).
    assert (4 * X * Q <= 4 * X * (U - X)) by nia.
    assert (4 * X * (U - X) <= U * U) by nia.
    nia.
  - assert (H1 : 4 * X * Q <= 4 * X * (U - X + a)) by nia.
    subst U. set (w := 16777216 * a - X) in *.
    assert (Hw : 0 < w) by (unfold w; lia).
    assert (HXw : X = 16777216 * a - w) by (unfold w; lia).
    clearbody w. subst X.
    assert (H2 : (16777216 * a - w) * (33554432 * a - (16777216 * a - w) + a)
                 = 16777216 * 16777217 * (a * a) - a * w - w * w) by ring.
    assert (H3 : 0 < a * w + w * w) by nia.
    nia.
Qed.

(** Closure of the map on binary32: for a growth rate in [0, 4] and a
    state in [0, 1] the next state is again a well-formed datum in [0, 1]. *)
Lemma logistic_closed g x :
  valid g = true -> valid x = true ->
  leb zero g = true -> leb g four = true ->
  in_unit x = true ->
  in_unit (logistic g x) = true /\ valid (logistic g x) = true.
Proof.
  intros Hvg Hvx Hg0 Hg4 Hx. unfold in_unit in Hx.
  apply andb_true_iff in Hx as [Hx0 Hx1].
  destruct (between_value 149 g (-21) ltac:(lia) ltac:(lia) Hvg Hg0 Hg4)
    as (G & HG & HG4).
  destruct (between_value 149 x (-23) ltac:(lia) ltac:(lia) Hvx Hx0 Hx1)
    as (X & HX & HX1).
  change (-23 + 23 + 149) with 149 in HX1.
  change (-21 + 23 + 149) with (2 + 149) in HG4.
  rewrite (pow2_add 2 149) in HG4 by lia. change (2 ^ 2) with 4 in HG4.
  destruct (mul_le_four 149 g x G X ltac:(lia) HG HX HG4 HX1) as (P & HP & HP4).
  destruct (sub_one_spec 149 x X ltac:(lia) HX HX1) as (Q & HQ & HQ1 & HQ2).
  pose proof (nonneg_value_nonneg 149 _ _ ltac:(lia) HX) as HX0.
  pose proof (nonneg_value_nonneg 149 _ _ ltac:(lia) HP) as HP0.
  pose proof (nonneg_value_nonneg 149 _ _ ltac:(lia) HQ) as HQ0.
  unfold logistic. rewrite of_int_1.
  destruct (mul_near_one 149 (mul g x) (sub one x) P Q ltac:(lia) HP HQ)
    as (Y & HY & HY1).
  - change (2 ^ 24) with 16777216.
    apply (logistic_product_bound (2 ^ 149) (2 ^ (149 - 25)) X); lia.
  - apply (value_in_unit 149 _ Y); [lia | assumption | assumption].
Qed.

End Binary32Lemmas.

(** ** Program-level facts *)

(** ** Memory and integer helpers *)

Lemma load_Done (m : gmap Z LADSPA_Data) p v :
  load m p = Done v <-> p <> NULL /\ m !! p = Some v.
Proof.
  unfold load. destruct (Z.eqb_spec p NULL) as [->|Hp].
  - split; [discriminate | intros [[] _]; reflexivity].
  - destruct (m !! p) as [w|]; split.
    + intros [= ->]. auto.
    + intros [_ [= ->]]. reflexivity.
    + discriminate.
    + intros [_ H]. discriminate.
Qed.

Lemma load_valid (m : gmap Z LADSPA_Data) p :
  valid_ptr m p -> exists v, load m p = Done v /\ m !! p = Some v.
Proof.
  intros [Hp [v Hv]]. exists v. split; [|assumption].
  apply load_Done. auto.
Qed.

Lemma store_valid (m : gmap Z LADSPA_Data) p v :
  valid_ptr m p -> store m p v = Done (<[p := v]> m).
Proof.
  intros [Hp [w Hw]]. unfold store.
  destruct (Z.eqb_spec p NULL); [contradiction|]. rewrite Hw. reflexivity.
Qed.

Lemma store_Done (m m' : gmap Z LADSPA_Data) p v :
  store m p v = Done m' -> valid_ptr m p /\ m' = <[p := v]> m.
Proof.
  unfold store, valid_ptr. destruct (Z.eqb_spec p NULL); [discriminate|].
  destruct (m !! p) as [w|] eqn:E; [|discriminate].
  intros [= <-]. eauto.
Qed.

Lemma store_not_Done (m : gmap Z LADSPA_Data) p v :
  completes (store m p v) = false -> store m p v = Undefined BadDereference.
Proof.
  unfold store. destruct (p =? NULL); [reflexivity|].
  destruct (m !! p); [discriminate | reflexivity].
Qed.

Lemma valid_ptr_insert (m : gmap Z LADSPA_Data) p q v :
  valid_ptr m q -> valid_ptr (<[p := v]> m) q.
Proof.
  intros [Hq Hs]. split; [assumption|].
  destruct (decide (p = q)) as [->|Hne].
  - rewrite lookup_insert_eq. eauto.
  - rewrite lookup_insert_ne by assumption. assumption.
Qed.

Lemma valid_ptr_insert_inv (m : gmap Z LADSPA_Data) p q v :
  valid_ptr m p -> valid_ptr (<[p := v]> m) q -> valid_ptr m q.
Proof.
  intros Hp [Hq Hs]. destruct (decide (p = q)) as [<-|Hne]; [assumption|].
  split; [assumption|]. rewrite lookup_insert_ne in Hs by assumption. assumption.
Qed.

Lemma ulong_of_int_small i : 0 <= i <= INT_MAX -> ulong_of_int i = i.
Proof.
  intros H. unfold ulong_of_int. apply Z.mod_small.
  unfold INT_MAX, ULONG_MAX in *. lia.
Qed.

Lemma recurrence_shift g x k :
  recurrence g (logistic g x) k = logistic g (recurrence g x k).
Proof. induction k as [|k IH]; simpl; [reflexivity | rewrite IH; reflexivity]. Qed.

(** ** The loop of [lmng_run] *)

(** With the counter at [i], [k] samples to go and none of the increments
    overflowing, the loop completes; it has written the next [k] states of
    the recurrence to cells [i .. i + k - 1] of the buffer and nothing
    else, and [current] is the state after them. *)
Lemma run_loop_spec g n (k : nat) :
  forall i m inst (fuel : nat),
    0 <= i -> i + Z.of_nat k = n -> n <= INT_MAX -> (k <= fuel)%nat ->
    (forall j, i <= j < n -> valid_ptr m (outbuf inst + j)) ->
    exists m',
      run_loop fuel g n i m inst
        = Done (m', set_current inst (recurrence g (current inst) k)) /\
      (forall j, i <= j < n ->
         m' !! (outbuf inst + j)
           = Some (recurrence g (current inst) (Z.to_nat (j - i)))) /\
      (forall p, ~ (outbuf inst + i <= p < outbuf inst + n) -> m' !! p = m !! p) /\
      (forall p, valid_ptr m p -> valid_ptr m' p).
Proof.
  induction k as [|k IH]; intros i m inst fuel Hi Hn Hmax Hfuel Hbuf.
  - exists m. assert (i = n) by lia. subst i.
    destruct fuel; simpl; rewrite ulong_of_int_small by lia;
      rewrite Z.ltb_irrefl; (split; [destruct inst; reflexivity|]);
      (split; [intros; lia | auto]).
  - destruct fuel as [|fuel]; [lia|]. simpl.
    rewrite ulong_of_int_small by lia.
    destruct (Z.ltb_spec i n); [|lia].
    rewrite (store_valid m (outbuf inst + i) (current inst)) by (apply Hbuf; lia).
    simpl. unfold int_succ. destruct (Z.ltb_spec i INT_MAX); [|lia]. simpl.
    destruct (IH (i + 1) (<[outbuf inst + i := current inst]> m)
                (set_current inst (logistic g (current inst))) fuel)
      as (m' & Hrun & Hsamples & Hframe & Hvalid); try lia.
    { intros j Hj. simpl. apply valid_ptr_insert. apply Hbuf. lia. }
    exists m'. simpl in *. rewrite Hrun. split; [|split; [|split]].
    + rewrite recurrence_shift. reflexivity.
    + intros j Hj. destruct (Z.eq_dec j i) as [->|Hne].
      * rewrite Hframe by lia. rewrite lookup_insert_eq.
        rewrite Z.sub_diag. reflexivity.
      * rewrite Hsamples by lia.
        replace (Z.to_nat (j - i)) with (S (Z.to_nat (j - (i + 1)))) by lia.
        simpl. rewrite recurrence_shift. reflexivity.
    + intros p Hp. rewrite Hframe by lia. apply lookup_insert_ne. lia.
    + intros p Hp. apply Hvalid. apply valid_ptr_insert. assumption.
Qed.

(** What a completed loop tells about its start: the remaining cells could
    be written and the counter never had to pass [INT_MAX]. *)
Lemma run_loop_Done_inv g n (fuel : nat) :
  forall i m inst res,
    0 <= i <= INT_MAX ->
    run_loop fuel g n i m inst = Done res ->
    (i < n -> n <= INT_MAX) /\
    (Z.max 0 (n - i) <= Z.of_nat fuel) /\
    (forall j, i <= j < n -> valid_ptr m (outbuf inst + j)).
Proof.
  induction fuel as [|fuel IH]; intros i m inst res Hi Hrun; simpl in Hrun;
    rewrite ulong_of_int_small in Hrun by assumption;
    destruct (Z.ltb_spec i n) as [Hlt|Hge]; try discriminate;
    try (split; [lia | split; [lia | intros; lia]]).
  destruct (store m (outbuf inst + i) (current inst)) as [m1| |] eqn:Hst;
    try discriminate.
  apply store_Done in Hst as [Hv ->]. simpl in Hrun.
  unfold int_succ in Hrun. destruct (Z.ltb_spec i INT_MAX); [|discriminate].
  simpl in Hrun. apply IH in Hrun as (Hmax & Hfuel & Hbuf); [|lia].
  split; [|split].
  - intros _. destruct (Z.ltb_spec (i + 1) n); lia.
  - lia.
  - intros j Hj. destruct (Z.eq_dec j i) as [->|Hne]; [assumption|].
    simpl in Hbuf. eapply valid_ptr_insert_inv; [exact Hv|]. apply Hbuf. lia.
Qed.

(** A request for more than [INT_MAX] samples never completes: a store
    fails, or the counter reaches [INT_MAX] and [++i] overflows. *)
Lemma run_loop_overflow g n (fuel : nat) :
  forall i m inst,
    0 <= i <= INT_MAX -> INT_MAX < n -> INT_MAX + 1 - i <= Z.of_nat fuel ->
    is_undefined (run_loop fuel g n i m inst) = true.
Proof.
  induction fuel as [|fuel IH]; intros i m inst Hi Hn Hfuel; [lia|].
  simpl. rewrite ulong_of_int_small by assumption.
  destruct (Z.ltb_spec i n); [|lia].
  destruct (completes (store m (outbuf inst + i) (current inst))) eqn:Hst.
  - destruct (store m (outbuf inst + i) (current inst)); try discriminate.
    simpl. unfold int_succ. destruct (Z.ltb_spec i INT_MAX); [|reflexivity].
    simpl. apply IH; lia.
  - rewrite (store_not_Done _ _ _ Hst). reflexivity.
Qed.

(** The fuel [lmng_run] gives the loop is never used up. *)
Lemma run_loop_fuel g n (fuel : nat) :
  forall i m inst,
    0 <= i <= INT_MAX -> n - i <= Z.of_nat fuel ->
    run_loop fuel g n i m inst <> OutOfFuel.
Proof.
  induction fuel as [|fuel IH]; intros i m inst Hi Hfuel; simpl;
    rewrite ulong_of_int_small by assumption;
    destruct (Z.ltb_spec i n); try discriminate; try lia.
  destruct (completes (store m (outbuf inst + i) (current inst))) eqn:Hst.
  - destruct (store m (outbuf inst + i) (current inst)); try discriminate.
    simpl. unfold int_succ. destruct (Z.ltb_spec i INT_MAX); [|discriminate].
    simpl. apply IH; lia.
  - rewrite (store_not_Done _ _ _ Hst). discriminate.
Qed.

(** ** The clamp and the map *)

Import Binary32.

(** the literals are the conversions of the integers they stand for, and
    [half] is 1/2 *)
Example literals_of_int :
  of_int 0 = zero /\ of_int 1 = one /\ of_int 4 = four /\
  mul half (of_int 2) = one.
Proof. repeat split; reflexivity. Qed.

(** at [r = 4] the map sends 1/2 to 1, and 1 to 0 *)
Example logistic_four_half : logistic four half = one /\ logistic four one = zero.
Proof. split; reflexivity. Qed.

(** three samples from the seed 1/2 at [r = 10], clamped to 4 *)
Example lmng_run_three_samples :
  lmng_run (host_memory (of_int 10) half) (set_current host_instance half) 3
    = Done (<[22 := zero]> (<[21 := one]> (<[20 := half]>
              (host_memory (of_int 10) half))),
            set_current host_instance zero).
Proof. vm_compute. reflexivity. Qed.

(** [a < b] false on positive finite data gives [b <= a] *)
Lemma ltb_false_leb m1 e1 m2 e2 :
  SFltb (S754_finite false m1 e1) (S754_finite false m2 e2) = false ->
  SFleb (S754_finite false m2 e2) (S754_finite false m1 e1) = true.
Proof.
  unfold SFltb, SFleb, SFcompare.
  rewrite !Binary32Lemmas.compare_cont_Z.
  rewrite (Z.compare_antisym e1 e2), (Z.compare_antisym (Zpos m1) (Zpos m2)).
  destruct (e1 ?= e2); destruct (Zpos m1 ?= Zpos m2); simpl; congruence.
Qed.

Lemma clamp_r_finite_pos m e :
  clamp_r (S754_finite false m e)
    = if ltb four (S754_finite false m e) then four else S754_finite false m e.
Proof.
  unfold clamp_r. destruct (ltb four (S754_finite false m e)); reflexivity.
Qed.

(** Every growth rate other than a NaN is clamped into [0, 4]. *)
Lemma clamp_r_range r0 :
  is_nan r0 = false -> valid r0 = true ->
  valid (clamp_r r0) = true /\
  leb zero (clamp_r r0) = true /\ leb (clamp_r r0) four = true.
Proof.
  intros Hnan Hv. destruct r0 as [s|s| |s m e]; try discriminate.
  - destruct s; repeat split; reflexivity.
  - destruct s; repeat split; reflexivity.
  - destruct s.
    + repeat split; reflexivity.
    + rewrite clamp_r_finite_pos.
      destruct (ltb four (S754_finite false m e)) eqn:E.
      * repeat split; reflexivity.
      * split; [assumption|]. split; [reflexivity|].
        apply ltb_false_leb. exact E.
Qed.

Lemma clamp_r_is_finite r0 : is_nan r0 = false -> is_finite (clamp_r r0) = true.
Proof.
  intros Hnan. destruct r0 as [s|s| |s m e]; try discriminate.
  - destruct s; reflexivity.
  - destruct s; reflexivity.
  - destruct s; [reflexivity|]. rewrite clamp_r_finite_pos.
    destruct (ltb four (S754_finite false m e)); reflexivity.
Qed.

Lemma clamp_r_above r0 : ltb four r0 = true -> clamp_r r0 = four.
Proof. intros H. unfold clamp_r. rewrite H. reflexivity. Qed.

Lemma clamp_r_below r0 : ltb r0 zero = true -> clamp_r r0 = zero.
Proof.
  intros H. destruct r0 as [s|s| |s m e]; try discriminate.
  - destruct s; [reflexivity | discriminate].
  - destruct s; [reflexivity | discriminate].
Qed.

Lemma clamp_r_idempotent r0 : clamp_r (clamp_r r0) = clamp_r r0.
Proof.
  destruct r0 as [s|s| |s m e]; try (destruct s); try reflexivity.
  rewrite clamp_r_finite_pos.
  destruct (ltb four (S754_finite false m e)) eqn:E; [reflexivity|].
  rewrite clamp_r_finite_pos, E. reflexivity.
Qed.

(** 0 is a fixed point of the map for every finite growth rate *)
Lemma logistic_zero g x :
  is_finite g = true -> is_zero x = true -> is_zero (logistic g x) = true.
Proof.
  intros Hg Hx. destruct x as [sx| | |]; try discriminate.
  destruct g as [sg|sg| |sg mg eg]; try discriminate; reflexivity.
Qed.

(** 1 is sent to 0 by the map *)
Lemma logistic_one g :
  valid g = true -> leb zero g = true -> leb g four = true ->
  is_zero (logistic g one) = true.
Proof.
  intros Hv H0 H4.
  destruct (Binary32Lemmas.between_value 149 g (-21) ltac:(lia) ltac:(lia) Hv H0 H4)
    as (G & HG & HG4).
  change (-21 + 23 + 149) with (2 + 149) in HG4.
  rewrite (Binary32Lemmas.pow2_add 2 149) in HG4 by lia.
  change (2 ^ 2) with 4 in HG4.
  destruct (Binary32Lemmas.mul_le_four 149 g one G (2 ^ 149) ltac:(lia) HG
              (Binary32Lemmas.one_value 149 ltac:(lia)) HG4 ltac:(lia))
    as (P & HP & _).
  unfold logistic, mul.
  change (sub (of_int 1) one) with (S754_zero false).
  destruct HP as [[_ [s ->]]|(m & e & -> & _)]; reflexivity.
Qed.

(** the states of the recurrence stay in [0, 1] *)
Lemma recurrence_in_unit g x k :
  valid g = true -> leb zero g = true -> leb g four = true ->
  valid x = true -> in_unit x = true ->
  in_unit (recurrence g x k) = true /\ valid (recurrence g x k) = true.
Proof.
  intros Hvg Hg0 Hg4 Hvx Hx. induction k as [|k [IH1 IH2]]; simpl.
  - auto.
  - apply Binary32Lemmas.logistic_closed; assumption.
Qed.

Lemma recurrence_zero g x k :
  is_finite g = true -> is_zero x = true -> is_zero (recurrence g x k) = true.
Proof.
  intros Hg Hx. induction k as [|k IH]; simpl; [assumption|].
  apply logistic_zero; assumption.
Qed.

(** ** [lmng_run] as a whole *)

(** A block of at most [INT_MAX] samples on bound ports: the call
    completes, sample [j] is state [j] of the recurrence started at
    [current] with the clamped growth rate, [current] ends as state [n],
    and nothing but the block is written. *)
Lemma lmng_run_spec m inst n r0 :
  0 <= n <= INT_MAX ->
  load m (r inst) = Done r0 ->
  valid_buf m (outbuf inst) n ->
  exists m',
    lmng_run m inst n
      = Done (m', set_current inst
                    (recurrence (clamp_r r0) (current inst) (Z.to_nat n))) /\
    (forall j, 0 <= j < n ->
       m' !! (outbuf inst + j)
         = Some (recurrence (clamp_r r0) (current inst) (Z.to_nat j))) /\
    (forall p, ~ (outbuf inst <= p < outbuf inst + n) -> m' !! p = m !! p).
Proof.
  intros Hn Hr Hbuf. unfold lmng_run. rewrite Hr. simpl obind.
  destruct (run_loop_spec (clamp_r r0) n (Z.to_nat n) 0 m inst (Z.to_nat n))
    as (m' & Hrun & Hs & Hf & _); try lia.
  { intros j Hj. apply Hbuf. lia. }
  exists m'. split; [exact Hrun|]. split.
  - intros j Hj. rewrite Hs by lia. rewrite Z.sub_0_r. reflexivity.
  - intros p Hp. apply Hf. lia.
Qed.

(** What a completed call tells: the ports were bound, the count did not
    exceed [INT_MAX], and the result is the one of [lmng_run_spec]. *)
Lemma lmng_run_Done_spec m inst n m' inst' :
  0 <= n ->
  lmng_run m inst n = Done (m', inst') ->
  exists r0,
    load m (r inst) = Done r0 /\ n <= INT_MAX /\ valid_buf m (outbuf inst) n /\
    inst' = set_current inst (recurrence (clamp_r r0) (current inst) (Z.to_nat n)) /\
    (forall j, 0 <= j < n ->
       m' !! (outbuf inst + j)
         = Some (recurrence (clamp_r r0) (current inst) (Z.to_nat j))) /\
    (forall p, ~ (outbuf inst <= p < outbuf inst + n) -> m' !! p = m !! p).
Proof.
  intros Hn Hrun. unfold lmng_run in Hrun.
  destruct (load m (r inst)) as [r0| |] eqn:Hr; try discriminate.
  simpl obind in Hrun.
  assert (H0 : 0 <= 0 <= INT_MAX) by (unfold INT_MAX; lia).
  pose proof (run_loop_Done_inv _ _ _ 0 _ _ _ H0 Hrun) as (Hmax & _ & Hbuf).
  assert (Hn' : n <= INT_MAX).
  { destruct (Z.eq_dec n 0) as [->|]; [unfold INT_MAX; lia | apply Hmax; lia]. }
  assert (Hb : valid_buf m (outbuf inst) n) by (intros j Hj; apply Hbuf; lia).
  destruct (lmng_run_spec m inst n r0 ltac:(lia) Hr Hb) as (m1 & Hrun1 & Hs & Hf).
  unfold lmng_run in Hrun1. rewrite Hr in Hrun1. simpl obind in Hrun1.
  rewrite Hrun in Hrun1. injection Hrun1 as -> ->.
  exists r0. auto 10.
Qed.

(** A count above [INT_MAX] never completes, whatever the ports are. *)
Lemma lmng_run_overflow m inst n :
  INT_MAX < n -> is_undefined (lmng_run m inst n) = true.
Proof.
  intros Hn. unfold lmng_run.
  destruct (load m (r inst)) as [r0| |] eqn:Hr; try reflexivity.
  - simpl obind. apply run_loop_overflow; unfold INT_MAX in *; lia.
  - unfold load in Hr. destruct (r inst =? NULL); [discriminate|].
    destruct (m !! r inst); discriminate.
Qed.

(** On a buffer long enough, the undefined behaviour met is the overflow
    of the counter, after [INT_MAX + 1] samples were written. *)
Lemma run_loop_overflow_valid g n (fuel : nat) :
  forall i m inst,
    0 <= i <= INT_MAX -> INT_MAX < n -> INT_MAX + 1 - i <= Z.of_nat fuel ->
    (forall j, i <= j <= INT_MAX -> valid_ptr m (outbuf inst + j)) ->
    run_loop fuel g n i m inst = Undefined SignedOverflow.
Proof.
  induction fuel as [|fuel IH]; intros i m inst Hi Hn Hfuel Hbuf; [lia|].
  simpl. rewrite ulong_of_int_small by assumption.
  destruct (Z.ltb_spec i n); [|lia].
  rewrite store_valid by (apply Hbuf; lia). simpl.
  unfold int_succ. destruct (Z.ltb_spec i INT_MAX); [|reflexivity].
  simpl. apply IH; try lia.
  intros j Hj. simpl. apply valid_ptr_insert. apply Hbuf. lia.
Qed.

Lemma lmng_run_overflow_valid m inst n :
  INT_MAX < n -> valid_ptr m (r inst) -> valid_buf m (outbuf inst) n ->
  lmng_run m inst n = Undefined SignedOverflow.
Proof.
  intros Hn Hr Hbuf. unfold lmng_run.
  destruct (load_valid m (r inst) Hr) as (r0 & -> & _). simpl obind.
  apply run_loop_overflow_valid; unfold INT_MAX in *; try lia.
  intros j Hj. apply Hbuf. lia.
Qed.

(** An empty block: the growth rate is read, nothing is written. *)
Lemma lmng_run_zero m inst :
  valid_ptr m (r inst) -> lmng_run m inst 0 = Done (m, inst).
Proof.
  intros Hr. unfold lmng_run.
  destruct (load_valid m (r inst) Hr) as (r0 & -> & _). reflexivity.
Qed.

Lemma lmng_run_fuel m inst n : lmng_run m inst n <> OutOfFuel.
Proof.
  unfold lmng_run, load. destruct (r inst =? NULL); [discriminate|].
  destruct (m !! r inst); [|discriminate]. simpl.
  apply run_loop_fuel; unfold INT_MAX; lia.
Qed.

(** ** Runs on memories that differ in one cell *)

Lemma store_agree a m1 m2 p v :
  agree_off a m1 m2 ->
  match store m1 p v, store m2 p v with
  | Done m1', Done m2' => agree_off a m1' m2'
  | Undefined u1, Undefined u2 => u1 = u2
  | _, _ => False
  end.
Proof.
  intros [Hoff Hat]. unfold store. destruct (p =? NULL); [reflexivity|].
  destruct (decide (p = a)) as [->|Hne].
  - destruct (m1 !! a) as [v1|] eqn:E1, (m2 !! a) as [v2|] eqn:E2.
    + split.
      * intros p Hp. rewrite !lookup_insert_ne by congruence. apply Hoff, Hp.
      * rewrite !lookup_insert_eq. split; eauto.
    + destruct Hat as [Hat _]. destruct (Hat ltac:(eauto)) as [? [=]].
    + destruct Hat as [_ Hat]. destruct (Hat ltac:(eauto)) as [? [=]].
    + reflexivity.
  - rewrite <- (Hoff p Hne). destruct (m1 !! p) as [v1|]; [|reflexivity].
    split.
    + intros q Hq. destruct (decide (p = q)) as [->|Hpq].
      * rewrite !lookup_insert_eq. reflexivity.
      * rewrite !lookup_insert_ne by assumption. apply Hoff, Hq.
    + rewrite !lookup_insert_ne by assumption. exact Hat.
Qed.

Lemma run_loop_agree a g n (fuel : nat) :
  forall i m1 m2 inst,
    agree_off a m1 m2 ->
    match run_loop fuel g n i m1 inst, run_loop fuel g n i m2 inst with
    | Done (m1', s1), Done (m2', s2) => s1 = s2 /\ agree_off a m1' m2'
    | Undefined u1, Undefined u2 => u1 = u2
    | OutOfFuel, OutOfFuel => True
    | _, _ => False
    end.
Proof.
  induction fuel as [|fuel IH]; intros i m1 m2 inst Hag; simpl;
    destruct (ulong_of_int i <? n); try (split; [reflexivity | assumption]);
    try exact I.
  pose proof (store_agree a m1 m2 (outbuf inst + i) (current inst) Hag) as Hst.
  destruct (store m1 (outbuf inst + i) (current inst)) as [m1'|u1|],
           (store m2 (outbuf inst + i) (current inst)) as [m2'|u2|];
    try contradiction; simpl; try assumption.
  destruct (int_succ i) as [i'|u|]; simpl; [|reflexivity|exact I].
  apply IH. assumption.
Qed.

Lemma connect_all_current inst calls :
  current (connect_all inst calls) = current inst.
Proof.
  unfold connect_all. revert inst.
  induction calls as [|[p loc] calls IH]; intros inst; simpl; [reflexivity|].
  rewrite IH. unfold lmng_connect.
  destruct (p =? PORT_R); [reflexivity|].
  destruct (p =? PORT_SEED); [reflexivity|].
  destruct (p =? PORT_OUT); reflexivity.
Qed.

Lemma host_memory_valid_buf rv sv : valid_buf (host_memory rv sv) 20 3.
Proof.
  intros i Hi. assert (i = 0 \/ i = 1 \/ i = 2) as [->|[->| ->]] by lia;
    (split; [discriminate | eexists; reflexivity]).
Qed.

(** ** Comparisons, and the rates the clamp keeps *)

Lemma SFcompare_antisym a b :
  SFcompare b a = option_map CompOpp (SFcompare a b).
Proof.
  destruct a as [sa|sa| |sa ma ea], b as [sb|sb| |sb mb eb];
    try (destruct sa); try (destruct sb); try reflexivity;
    unfold SFcompare; rewrite !Binary32Lemmas.compare_cont_Z;
    rewrite (Z.compare_antisym ea eb), (Z.compare_antisym (Zpos ma) (Zpos mb));
    destruct (ea ?= eb); destruct (Zpos ma ?= Zpos mb); reflexivity.
Qed.

Lemma leb_ltb_false a b : leb a b = true -> ltb b a = false.
Proof.
  unfold leb, ltb, SFleb, SFltb. rewrite (SFcompare_antisym a b).
  destruct (SFcompare a b) as [[]|]; simpl; congruence.
Qed.

Lemma clamp_r_in_range r0 :
  leb zero r0 = true -> leb r0 four = true -> clamp_r r0 = r0.
Proof.
  intros H0 H4. unfold clamp_r.
  rewrite (leb_ltb_false _ _ H4), (leb_ltb_false _ _ H0). reflexivity.
Qed.

(** * The statements of the specification *)

(** C1 (does not hold of the code above [INT_MAX]).  The specification
    has [run] write exactly [sampleCount] samples for every count.  The
    loop counter is an [int]: for [sampleCount = 2147483649] the call never
    completes, whatever the instance and the memory, since [++i] overflows
    once [INT_MAX + 1] samples are written.  For counts up to [INT_MAX] the
    statement holds, see [lmng_run_spec]. *)
Theorem lmng_run_2147483649_undefined :
  forall (m : gmap Z LADSPA_Data) (inst : lmng_state),
    is_undefined (lmng_run m inst 2147483649) = true.
Proof.
  intros m inst. apply lmng_run_overflow. unfold INT_MAX. lia.
Qed.

(** C2 (as amended).  The growth rate is read once, before the loop, and
    passed through the two comparisons.  A value above 4 becomes 4, a value
    below 0 becomes 0, a value in [0, 4] is used as it is, and so is a NaN:
    the value used lies in [0, 4] unless the value read is a NaN.  Two
    calls that differ only in the value of [r] and whose values clamp alike
    complete alike, with the same block, the same final instance and the
    same memory off the cell of [r]; so [r = 10] runs as [r = 4] and
    [r = -5] as [r = 0].  Every sample of a call comes from the value read
    at its start, even when the block overlaps the cell of [r]. *)
Theorem lmng_run_clamp_law :
  forall (m : gmap Z LADSPA_Data) inst n r1 r2,
    0 <= n ->
    m !! r inst = Some r1 ->
    clamp_r r1 = clamp_r r2 ->
    same_run (r inst) (outbuf inst) n
      (lmng_run m inst n) (lmng_run (<[r inst := r2]> m) inst n) /\
    (forall m' inst',
       lmng_run m inst n = Done (m', inst') ->
       forall j, 0 <= j < n ->
         m' !! (outbuf inst + j)
           = Some (recurrence (clamp_r r1) (current inst) (Z.to_nat j))) /\
    clamp_r (of_int 10) = clamp_r (of_int 4) /\
    clamp_r (of_int (-5)) = clamp_r (of_int 0) /\
    (is_nan r1 = false -> valid r1 = true ->
       leb zero (clamp_r r1) = true /\ leb (clamp_r r1) four = true) /\
    (ltb four r1 = true -> clamp_r r1 = four) /\
    (ltb r1 zero = true -> clamp_r r1 = zero) /\
    (leb zero r1 = true -> leb r1 four = true -> clamp_r r1 = r1) /\
    (is_nan r1 = true -> clamp_r r1 = r1).
Proof.
  intros m inst n r1 r2 Hn Hr1 Hc.
  split; [|split; [|split; [reflexivity|split; [reflexivity|split; [|split;
    [|split; [|split]]]]]]].
  - assert (Hag : agree_off (r inst) m (<[r inst := r2]> m)).
    { split.
      - intros p Hp. rewrite lookup_insert_ne by congruence. reflexivity.
      - rewrite lookup_insert_eq, Hr1. split; eauto. }
    destruct (Z.eqb_spec (r inst) NULL) as [Hnull|Hnn].
    { unfold lmng_run, load. rewrite (proj2 (Z.eqb_eq _ _) Hnull). reflexivity. }
    assert (E1 : lmng_run m inst n
                 = run_loop (Z.to_nat n) (clamp_r r1) n 0 m inst).
    { unfold lmng_run, load. rewrite (proj2 (Z.eqb_neq _ _) Hnn), Hr1.
      reflexivity. }
    assert (E2 : lmng_run (<[r inst := r2]> m) inst n
                 = run_loop (Z.to_nat n) (clamp_r r1) n 0 (<[r inst := r2]> m) inst).
    { unfold lmng_run, load.
      rewrite (proj2 (Z.eqb_neq _ _) Hnn), lookup_insert_eq, Hc. reflexivity. }
    pose proof (run_loop_agree (r inst) (clamp_r r1) n (Z.to_nat n) 0 _ _
                  inst Hag) as Hrel.
    rewrite <- E1, <- E2 in Hrel. clear E1 E2.
    destruct (lmng_run m inst n) as [[m1 s1]|u1|] eqn:F1;
      destruct (lmng_run (<[r inst := r2]> m) inst n) as [[m2 s2]|u2|] eqn:F2;
      unfold same_run; try contradiction; try assumption;
      [|exact (lmng_run_fuel _ _ _ F1)].
    destruct Hrel as [-> [Hoff _]].
    split; [reflexivity|]. split; [|exact Hoff].
    apply lmng_run_Done_spec in F1 as (ra & Hla & _ & _ & _ & Hs1 & _);
      [|assumption].
    apply lmng_run_Done_spec in F2 as (rb & Hlb & _ & _ & _ & Hs2 & _);
      [|assumption].
    apply load_Done in Hla as [_ Hla]. apply load_Done in Hlb as [_ Hlb].
    rewrite lookup_insert_eq in Hlb.
    assert (ra = r1) by congruence. assert (rb = r2) by congruence. subst ra rb.
    intros j Hj. rewrite Hs1, Hs2 by assumption. rewrite Hc. reflexivity.
  - intros m' inst' Hrun.
    apply lmng_run_Done_spec in Hrun as (ra & Hla & _ & _ & _ & Hs & _);
      [|assumption].
    apply load_Done in Hla as [_ Hla].
    assert (ra = r1) by congruence. subst ra. exact Hs.
  - intros Hnan Hv. apply clamp_r_range; assumption.
  - apply clamp_r_above.
  - apply clamp_r_below.
  - apply clamp_r_in_range.
  - intros Hnan. destruct r1; try discriminate. reflexivity.
Qed.

(** From the state 1/2: the rates 10 and 4 write the block 1/2, 1, 0, the
    rates -5 and 0 write 1/2, 0, 0, and the rate 3, which the clamp keeps,
    writes 1/2, 3/4, 9/16. *)
Lemma lmng_run_clamp_law_witness :
  same_run 10 20 3
    (lmng_run (host_memory (of_int 10) half) (set_current host_instance half) 3)
    (lmng_run (<[10 := of_int 4]> (host_memory (of_int 10) half))
       (set_current host_instance half) 3) /\
  same_run 10 20 3
    (lmng_run (host_memory (of_int (-5)) half) (set_current host_instance half) 3)
    (lmng_run (<[10 := of_int 0]> (host_memory (of_int (-5)) half))
       (set_current host_instance half) 3) /\
  (leb zero (clamp_r (of_int 10)) = true /\ leb (clamp_r (of_int 10)) four = true) /\
  clamp_r (of_int 10) = four /\
  clamp_r (of_int (-5)) = zero /\
  clamp_r (of_int 3) = of_int 3 /\
  (forall j, 0 <= j < 3 ->
     <[22 := S754_finite false 9437184 (-24)]>
       (<[21 := S754_finite false 12582912 (-24)]>
          (<[20 := half]> (host_memory (of_int 3) half)))
       !! (outbuf (set_current host_instance half) + j)
     = Some (recurrence (clamp_r (of_int 3))
               (current (set_current host_instance half)) (Z.to_nat j))) /\
  lmng_run (host_memory (of_int 10) half) (set_current host_instance half) 3
    = Done (<[22 := zero]> (<[21 := one]> (<[20 := half]>
              (host_memory (of_int 10) half))),
            set_current host_instance zero).
Proof.
  pose proof (lmng_run_clamp_law (host_memory (of_int 10) half)
                (set_current host_instance half) 3
                (of_int 10) (of_int 4) ltac:(lia) eq_refl eq_refl)
    as (Hten & _ & _ & _ & Hrange & Habove & _).
  pose proof (lmng_run_clamp_law (host_memory (of_int (-5)) half)
                (set_current host_instance half) 3
                (of_int (-5)) (of_int 0) ltac:(lia) eq_refl eq_refl)
    as (Hfive & _ & _ & _ & _ & _ & Hbelow & _).
  pose proof (lmng_run_clamp_law (host_memory (of_int 3) half)
                (set_current host_instance half) 3
                (of_int 3) (of_int 3) ltac:(lia) eq_refl eq_refl)
    as (_ & Hsamples & _ & _ & _ & _ & _ & Hkeep & _).
  split; [exact Hten|]. split; [exact Hfive|].
  split; [exact (Hrange eq_refl eq_refl)|].
  split; [exact (Habove eq_refl)|].
  split; [exact (Hbelow eq_refl)|].
  split; [exact (Hkeep eq_refl eq_refl)|].
  split; [|vm_compute; reflexivity].
  apply (Hsamples _ (set_current host_instance (S754_finite false 12386304 (-24)))).
  vm_compute. reflexivity.
Defined.

(** C2 as stated fails on a NaN: neither comparison holds, the rate is
    used as it is, and the block is NaN from the second sample on. *)
Lemma clamp_r_nan_counterexample :
  clamp_r S754_nan = S754_nan /\
  leb zero S754_nan = false /\ leb S754_nan four = false /\
  lmng_run (host_memory S754_nan half) host_instance 2
    = Done (<[21 := S754_nan]> (<[20 := zero]> (host_memory S754_nan half)),
            set_current host_instance S754_nan).
Proof.
  split; [reflexivity|]. split; [reflexivity|]. split; [reflexivity|].
  vm_compute. reflexivity.
Qed.

(** C3.  For a growth rate in [0, 4] and a state in [0, 1], both
    well-formed binary32 data, the next state computed in binary32 lies in
    [0, 1]; so does every state of the recurrence, hence every sample a
    call with that clamped rate writes and the [current] it leaves.  On
    bound ports and for a count up to [INT_MAX] the call does complete. *)
Theorem logistic_map_closed :
  forall g x,
    valid g = true -> leb zero g = true -> leb g four = true ->
    valid x = true -> in_unit x = true ->
    in_unit (logistic g x) = true /\
    (forall k, in_unit (recurrence g x k) = true) /\
    (forall (m : gmap Z LADSPA_Data) inst n r0,
       0 <= n -> load m (r inst) = Done r0 -> clamp_r r0 = g ->
       current inst = x ->
       (forall m' inst',
          lmng_run m inst n = Done (m', inst') ->
          in_unit (current inst') = true /\
          forall j, 0 <= j < n ->
            exists v, m' !! (outbuf inst + j) = Some v /\ in_unit v = true) /\
       (n <= INT_MAX -> valid_buf m (outbuf inst) n ->
          exists m' inst', lmng_run m inst n = Done (m', inst'))).
Proof.
  intros g x Hvg Hg0 Hg4 Hvx Hx.
  split; [apply Binary32Lemmas.logistic_closed; assumption|].
  split; [intros k; apply recurrence_in_unit; assumption|].
  intros m inst n r0 Hn Hr Hc Hcur. split.
  - intros m' inst' Hrun.
    apply lmng_run_Done_spec in Hrun as (ra & Hla & _ & _ & -> & Hs & _);
      [|assumption].
    assert (ra = r0) by congruence. subst ra. rewrite Hc, Hcur in *.
    split.
    + simpl. apply recurrence_in_unit; assumption.
    + intros j Hj. eexists. split; [apply Hs; assumption|].
      apply recurrence_in_unit; assumption.
  - intros Hmax Hbuf.
    destruct (lmng_run_spec m inst n r0 ltac:(lia) Hr Hbuf) as (m' & Hrun & _).
    eauto.
Qed.

Lemma logistic_map_closed_witness :
  in_unit (logistic four half) = true /\
  in_unit (recurrence four half 5) = true /\
  exists m' inst',
    lmng_run (host_memory (of_int 10) half) (set_current host_instance half) 3
      = Done (m', inst') /\
    in_unit (current inst') = true /\
    exists v, m' !! 22 = Some v /\ in_unit v = true.
Proof.
  pose proof (logistic_map_closed four half eq_refl eq_refl eq_refl eq_refl eq_refl)
    as (Hstep & Hrec & Hrun).
  split; [exact Hstep|]. split; [exact (Hrec 5%nat)|].
  destruct (Hrun (host_memory (of_int 10) half) (set_current host_instance half)
              3 (of_int 10) ltac:(lia) eq_refl eq_refl eq_refl)
    as (Hinv & Hdone).
  destruct (Hdone ltac:(unfold INT_MAX; lia) (host_memory_valid_buf _ _))
    as (m' & inst' & E).
  exists m', inst'. split; [exact E|].
  destruct (Hinv m' inst' E) as [Hcur Hs]. split; [exact Hcur|].
  apply (Hs 2). lia.
Defined.

(** C4 (as amended).  After [activate], a block of at most [INT_MAX]
    samples with a growth rate that is a well-formed datum other than a
    NaN: with a seed that is a zero every sample and the final [current]
    are zeros, equal to the seed; with the seed 1 the first sample is 1
    and every later sample and the final [current] are zeros. *)
Theorem seed_zero_fixed_seed_one_absorbed :
  forall (m : gmap Z LADSPA_Data) inst n r0 s,
    0 <= n <= INT_MAX ->
    load m (r inst) = Done r0 -> is_nan r0 = false -> valid r0 = true ->
    load m (seed inst) = Done s ->
    valid_buf m (outbuf inst) n ->
    exists inst1 m' inst',
      lmng_activate m inst = Done inst1 /\
      lmng_run m inst1 n = Done (m', inst') /\
      (is_zero s = true ->
         is_zero (current inst') = true /\ eqb (current inst') s = true /\
         forall j, 0 <= j < n ->
           exists v, m' !! (outbuf inst + j) = Some v /\
                     is_zero v = true /\ eqb v s = true) /\
      (s = one ->
         (0 < n -> m' !! (outbuf inst) = Some one /\
                   is_zero (current inst') = true) /\
         forall j, 1 <= j < n ->
           exists v, m' !! (outbuf inst + j) = Some v /\ is_zero v = true).
Proof.
  intros m inst n r0 s Hn Hr Hnan Hv Hs Hbuf.
  destruct (clamp_r_range r0 Hnan Hv) as (Hvg & Hg0 & Hg4).
  pose proof (clamp_r_is_finite r0 Hnan) as Hfin.
  destruct (lmng_run_spec m (set_current inst s) n r0 Hn Hr Hbuf)
    as (m' & Hrun & Hsamples & _).
  exists (set_current inst s), m',
    (set_current (set_current inst s)
       (recurrence (clamp_r r0) (current (set_current inst s)) (Z.to_nat n))).
  split; [unfold lmng_activate; rewrite Hs; reflexivity|].
  split; [exact Hrun|]. simpl current. simpl outbuf in Hsamples.
  assert (Hzz : forall a b, is_zero a = true -> is_zero b = true -> eqb a b = true).
  { intros [| | |] [| | |]; try discriminate; reflexivity. }
  split.
  - intros Hz.
    assert (Hk : forall k, is_zero (recurrence (clamp_r r0) s k) = true)
      by (intros k; apply recurrence_zero; assumption).
    split; [apply Hk|]. split; [apply Hzz; [apply Hk | assumption]|].
    intros j Hj. eexists. split; [apply Hsamples; assumption|].
    split; [apply Hk | apply Hzz; [apply Hk | assumption]].
  - intros ->.
    assert (Hk : forall k, is_zero (recurrence (clamp_r r0) one (S k)) = true).
    { induction k as [|k IH].
      - simpl. apply logistic_one; assumption.
      - change (recurrence (clamp_r r0) one (S (S k)))
          with (logistic (clamp_r r0) (recurrence (clamp_r r0) one (S k))).
        apply logistic_zero; assumption. }
    split.
    + intros Hpos. split.
      * rewrite <- (Z.add_0_r (outbuf inst)). rewrite Hsamples by lia. reflexivity.
      * replace (Z.to_nat n) with (S (Z.to_nat (n - 1))) by lia. apply Hk.
    + intros j Hj. eexists. split; [apply Hsamples; lia|].
      replace (Z.to_nat j) with (S (Z.to_nat (j - 1))) by lia. apply Hk.
Qed.

Lemma seed_zero_fixed_seed_one_absorbed_witness :
  (exists inst1 m' inst',
     lmng_activate (host_memory four zero) host_instance = Done inst1 /\
     lmng_run (host_memory four zero) inst1 3 = Done (m', inst') /\
     is_zero (current inst') = true /\
     exists v, m' !! 22 = Some v /\ is_zero v = true /\ eqb v zero = true) /\
  (exists inst1 m' inst',
     lmng_activate (host_memory four one) host_instance = Done inst1 /\
     lmng_run (host_memory four one) inst1 3 = Done (m', inst') /\
     m' !! 20 = Some one /\ is_zero (current inst') = true /\
     exists v, m' !! 21 = Some v /\ is_zero v = true).
Proof.
  split.
  - destruct (seed_zero_fixed_seed_one_absorbed (host_memory four zero)
                host_instance 3 four zero)
      as (inst1 & m' & inst' & Ha & Hrun & Hzero & _);
      [unfold INT_MAX; lia | reflexivity | reflexivity | reflexivity
      | reflexivity | apply host_memory_valid_buf |].
    exists inst1, m', inst'. split; [exact Ha|]. split; [exact Hrun|].
    destruct (Hzero eq_refl) as (Hc & _ & Hs). split; [exact Hc|].
    apply (Hs 2). lia.
  - destruct (seed_zero_fixed_seed_one_absorbed (host_memory four one)
                host_instance 3 four one)
      as (inst1 & m' & inst' & Ha & Hrun & _ & Hone);
      [unfold INT_MAX; lia | reflexivity | reflexivity | reflexivity
      | reflexivity | apply host_memory_valid_buf |].
    exists inst1, m', inst'. split; [exact Ha|]. split; [exact Hrun|].
    destruct (Hone eq_refl) as (Hfirst & Hs).
    destruct (Hfirst ltac:(lia)) as (H0 & Hc).
    split; [exact H0|]. split; [exact Hc|]. apply (Hs 1). lia.
Defined.

(** C4 as stated fails for the seed 1: it is not a fixed point, the map
    sends it to 0.  After [activate] with seed 1 and [r = 4] the second
    sample is 0 and so is [current]. *)
Lemma seed_one_counterexample :
  lmng_activate (host_memory four one) host_instance
    = Done (set_current host_instance one) /\
  lmng_run (host_memory four one) (set_current host_instance one) 2
    = Done (<[21 := zero]> (<[20 := one]> (host_memory four one)),
            set_current host_instance zero) /\
  eqb zero one = false.
Proof.
  split; [reflexivity|]. split; [vm_compute; reflexivity | reflexivity].
Qed.

(** C5 (does not hold of the code above [INT_MAX]).  The specification
    has [run] never fail and complete for every requested count; no count
    above [INT_MAX] completes.  An empty block on a bound port [r] is the
    no-op it describes, see [lmng_run_zero]. *)
Theorem lmng_run_never_completes_above_INT_MAX :
  forall (m : gmap Z LADSPA_Data) (inst : lmng_state) (k : nat),
    completes (lmng_run m inst (INT_MAX + 1 + Z.of_nat k)) = false.
Proof.
  intros m inst k.
  pose proof (lmng_run_overflow m inst (INT_MAX + 1 + Z.of_nat k) ltac:(lia)) as H.
  destruct (lmng_run m inst (INT_MAX + 1 + Z.of_nat k)); [discriminate|reflexivity..].
Qed.

(** C6.  Discovery is a function of the index alone: index 0 yields the
    address of the one descriptor, every greater index the null pointer. *)
Theorem ladspa_descriptor_lookup :
  ladspa_descriptor 0 = desc_plugin /\
  deref_descriptor (ladspa_descriptor 0) = Some plugin /\
  forall Index, 0 < Index -> ladspa_descriptor Index = desc_null.
Proof.
  split; [reflexivity|]. split; [reflexivity|].
  intros Index H. unfold ladspa_descriptor.
  destruct (Z.gtb_spec Index 0); [reflexivity | lia].
Qed.

Lemma ladspa_descriptor_lookup_witness :
  ladspa_descriptor 0 = desc_plugin /\ ladspa_descriptor 5 = desc_null.
Proof.
  split.
  - exact (proj1 ladspa_descriptor_lookup).
  - apply (proj2 (proj2 ladspa_descriptor_lookup)). reflexivity.
Defined.

(** C7.  [instantiate] returns the null handle exactly when the descriptor
    passed is not the address of this plugin's descriptor; otherwise it
    returns a fresh, zeroed instance with no port bound, whatever the
    sample rate. *)
Theorem lmng_new_null_iff_foreign :
  forall desc samplerate,
    (lmng_new desc samplerate = None <-> desc <> desc_plugin) /\
    (desc = desc_plugin -> lmng_new desc samplerate = Some lmng_state_new) /\
    (forall samplerate', lmng_new desc samplerate' = lmng_new desc samplerate) /\
    r lmng_state_new = NULL /\ seed lmng_state_new = NULL /\
    outbuf lmng_state_new = NULL.
Proof.
  intros desc samplerate. repeat split; try reflexivity.
  - intros H ->. discriminate.
  - intros H. destruct desc; try reflexivity. contradiction.
  - intros ->. reflexivity.
Qed.

Lemma lmng_new_null_iff_foreign_witness :
  lmng_new desc_plugin 44100 = Some lmng_state_new /\
  lmng_new (desc_foreign 4096) 44100 = None /\
  lmng_new desc_null 48000 = None.
Proof.
  split; [|split].
  - exact (proj1 (proj2 (lmng_new_null_iff_foreign desc_plugin 44100)) eq_refl).
  - apply (proj2 (proj1 (lmng_new_null_iff_foreign (desc_foreign 4096) 44100))).
    discriminate.
  - apply (proj2 (proj1 (lmng_new_null_iff_foreign desc_null 48000))).
    discriminate.
Defined.

(** C8.  [connect] on port 0, 1 or 2 replaces the binding of [r], [seed]
    or [out] and nothing else; on any other port index it changes nothing.
    A later binding of a port replaces an earlier one, and [activate] and
    [run] go through the bindings the instance holds when they are
    called: after [connect] on the seed port [activate] takes the value in
    the new cell; after [connect] on the port of [r] the block [run] writes
    is the recurrence under the rate in the new cell; after [connect] on
    the output port [run] writes its samples to the new cells and to no
    other cell, the cells bound before included.  This holds of every call
    of [run] that completes, and a call of at most [INT_MAX] samples on
    cells that can be accessed does complete. *)
Theorem lmng_connect_frame :
  forall inst port location,
    (port = PORT_R ->
       lmng_connect inst port location
         = {| r := location; seed := seed inst; outbuf := outbuf inst;
              current := current inst |}) /\
    (port = PORT_SEED ->
       lmng_connect inst port location
         = {| r := r inst; seed := location; outbuf := outbuf inst;
              current := current inst |}) /\
    (port = PORT_OUT ->
       lmng_connect inst port location
         = {| r := r inst; seed := seed inst; outbuf := location;
              current := current inst |}) /\
    (port <> PORT_R -> port <> PORT_SEED -> port <> PORT_OUT ->
       lmng_connect inst port location = inst) /\
    (forall location',
       lmng_connect (lmng_connect inst port location) port location'
         = lmng_connect inst port location') /\
    (forall m,
       lmng_activate m (lmng_connect inst PORT_SEED location)
         = let* s := load m location in
           Done (set_current (lmng_connect inst PORT_SEED location) s)) /\
    (forall m n,
       lmng_run m (lmng_connect inst PORT_R location) n
         = let* r0 := load m location in
           run_loop (Z.to_nat n) (clamp_r r0) n 0 m
             (lmng_connect inst PORT_R location)) /\
    outbuf (lmng_connect inst PORT_OUT location) = location /\
    (forall m s,
       load m location = Done s ->
       lmng_activate m (lmng_connect inst PORT_SEED location)
         = Done {| r := r inst; seed := location; outbuf := outbuf inst;
                   current := s |}) /\
    (forall m n r0,
       0 <= n <= INT_MAX ->
       load m location = Done r0 ->
       valid_buf m (outbuf inst) n ->
       exists m',
         lmng_run m (lmng_connect inst PORT_R location) n
           = Done (m', {| r := location; seed := seed inst; outbuf := outbuf inst;
                          current := recurrence (clamp_r r0) (current inst)
                                       (Z.to_nat n) |}) /\
         (forall j, 0 <= j < n ->
            m' !! (outbuf inst + j)
              = Some (recurrence (clamp_r r0) (current inst) (Z.to_nat j))) /\
         (forall p, ~ (outbuf inst <= p < outbuf inst + n) -> m' !! p = m !! p)) /\
    (forall m n r0,
       0 <= n <= INT_MAX ->
       load m (r inst) = Done r0 ->
       valid_buf m location n ->
       exists m',
         lmng_run m (lmng_connect inst PORT_OUT location) n
           = Done (m', {| r := r inst; seed := seed inst; outbuf := location;
                          current := recurrence (clamp_r r0) (current inst)
                                       (Z.to_nat n) |}) /\
         (forall j, 0 <= j < n ->
            m' !! (location + j)
              = Some (recurrence (clamp_r r0) (current inst) (Z.to_nat j))) /\
         (forall p, ~ (location <= p < location + n) -> m' !! p = m !! p)) /\
    (forall m n m' inst',
       0 <= n ->
       lmng_run m (lmng_connect inst PORT_R location) n = Done (m', inst') ->
       exists r0,
         load m location = Done r0 /\
         r inst' = location /\
         current inst' = recurrence (clamp_r r0) (current inst) (Z.to_nat n) /\
         (forall j, 0 <= j < n ->
            m' !! (outbuf inst + j)
              = Some (recurrence (clamp_r r0) (current inst) (Z.to_nat j)))) /\
    (forall m n m' inst',
       0 <= n ->
       lmng_run m (lmng_connect inst PORT_OUT location) n = Done (m', inst') ->
       exists r0,
         load m (r inst) = Done r0 /\
         outbuf inst' = location /\
         current inst' = recurrence (clamp_r r0) (current inst) (Z.to_nat n) /\
         (forall j, 0 <= j < n ->
            m' !! (location + j)
              = Some (recurrence (clamp_r r0) (current inst) (Z.to_nat j))) /\
         (forall p, ~ (location <= p < location + n) -> m' !! p = m !! p)).
Proof.
  intros inst port location.
  split; [intros ->; reflexivity|].
  split; [intros ->; reflexivity|].
  split; [intros ->; reflexivity|].
  split.
  { intros H0 H1 H2. unfold lmng_connect.
    destruct (Z.eqb_spec port PORT_R); [contradiction|].
    destruct (Z.eqb_spec port PORT_SEED); [contradiction|].
    destruct (Z.eqb_spec port PORT_OUT); [contradiction|]. reflexivity. }
  split.
  { intros location'. unfold lmng_connect.
    destruct (port =? PORT_R); [reflexivity|].
    destruct (port =? PORT_SEED); [reflexivity|].
    destruct (port =? PORT_OUT); reflexivity. }
  split; [reflexivity|]. split; [reflexivity|]. split; [reflexivity|].
  split; [|split; [|split; [|split]]].
  - intros m s Hs. unfold lmng_activate.
    change (seed (lmng_connect inst PORT_SEED location)) with location.
    rewrite Hs. reflexivity.
  - intros m n r0 Hn Hr Hbuf.
    apply (lmng_run_spec m (lmng_connect inst PORT_R location) n r0 Hn Hr Hbuf).
  - intros m n r0 Hn Hr Hbuf.
    apply (lmng_run_spec m (lmng_connect inst PORT_OUT location) n r0 Hn Hr Hbuf).
  - intros m n m' inst' Hn Hrun.
    apply lmng_run_Done_spec in Hrun as (r0 & Hr & _ & _ & -> & Hs & _);
      [|assumption].
    exists r0. split; [exact Hr|]. split; [reflexivity|]. split; [reflexivity|].
    exact Hs.
  - intros m n m' inst' Hn Hrun.
    apply lmng_run_Done_spec in Hrun as (r0 & Hr & _ & _ & -> & Hs & Hf);
      [|assumption].
    exists r0. split; [exact Hr|]. split; [reflexivity|]. split; [reflexivity|].
    split; [exact Hs | exact Hf].
Qed.

(** The output port of an instance in the state 1/2 is moved from cell 20
    to cell 21: two samples go to cells 21 and 22, cell 20 keeps its 0. *)
Lemma lmng_connect_frame_witness :
  lmng_connect host_instance 7 99 = host_instance /\
  lmng_connect host_instance PORT_SEED 12
    = {| r := 10; seed := 12; outbuf := 20; current := zero |} /\
  exists m',
    lmng_run (host_memory four half)
      (lmng_connect (set_current host_instance half) PORT_OUT 21) 2
      = Done (m', {| r := r (set_current host_instance half);
                     seed := seed (set_current host_instance half);
                     outbuf := 21;
                     current := recurrence (clamp_r four)
                                  (current (set_current host_instance half))
                                  (Z.to_nat 2) |}) /\
    (forall j, 0 <= j < 2 ->
       m' !! (21 + j)
         = Some (recurrence (clamp_r four)
                   (current (set_current host_instance half)) (Z.to_nat j))) /\
    (forall p, ~ (21 <= p < 21 + 2) -> m' !! p = host_memory four half !! p).
Proof.
  split; [|split].
  - apply (proj1 (proj2 (proj2 (proj2 (lmng_connect_frame host_instance 7 99)))));
      discriminate.
  - exact (proj1 (proj2 (lmng_connect_frame host_instance PORT_SEED 12)) eq_refl).
  - destruct (lmng_connect_frame (set_current host_instance half) PORT_OUT 21)
      as (_ & _ & _ & _ & _ & _ & _ & _ & _ & _ & Hout & _).
    apply (Hout (host_memory four half) 2 four).
    + unfold INT_MAX. lia.
    + reflexivity.
    + intros i Hi. assert (i = 0 \/ i = 1) as [->| ->] by lia;
        (split; [discriminate | eexists; reflexivity]).
Defined.

(** C9 (as amended).  [activate] stores the value read through [seed] in
    [current] as it is, whatever the value, and changes nothing else;
    [connect] never touches [current].  Running [N] samples, activating
    again with the same seed value and running [N] samples again gives the
    same block and the same final [current], provided the second call
    reads the same growth rate as the first. *)
Theorem activate_resets_sequence :
  forall (m m2 : gmap Z LADSPA_Data) inst N inst_a m1 inst1,
    0 <= N ->
    lmng_activate m inst = Done inst_a ->
    lmng_run m inst_a N = Done (m1, inst1) ->
    load m2 (seed inst) = load m (seed inst) ->
    load m2 (r inst) = load m (r inst) ->
    valid_buf m2 (outbuf inst) N ->
    (exists s, load m (seed inst) = Done s /\ inst_a = set_current inst s) /\
    (forall port location,
       current (lmng_connect inst port location) = current inst) /\
    exists inst_b m3 inst3,
      lmng_activate m2 inst1 = Done inst_b /\
      lmng_run m2 inst_b N = Done (m3, inst3) /\
      (forall j, 0 <= j < N ->
         m3 !! (outbuf inst + j) = m1 !! (outbuf inst + j)) /\
      current inst3 = current inst1.
Proof.
  intros m m2 inst N inst_a m1 inst1 HN Hact Hrun Hseed Hr Hbuf.
  unfold lmng_activate in Hact.
  destruct (load m (seed inst)) as [s| |] eqn:Hs; try discriminate.
  simpl in Hact. injection Hact as <-.
  split; [eauto|].
  split; [intros port location; apply (connect_all_current inst [(port, location)])|].
  apply lmng_run_Done_spec in Hrun
    as (r0 & Hr0 & Hmax & _ & -> & Hs1 & _); [|assumption].
  simpl r in Hr0. simpl outbuf in Hs1. simpl current in *.
  rewrite Hr0 in Hr.
  destruct (lmng_run_spec m2 (set_current inst s) N r0 ltac:(lia) Hr Hbuf)
    as (m3 & Hrun2 & Hs2 & _).
  simpl outbuf in Hs2. simpl current in *.
  exists (set_current inst s), m3,
    (set_current (set_current inst s) (recurrence (clamp_r r0) s (Z.to_nat N))).
  split.
  { unfold lmng_activate. simpl seed. rewrite Hseed. reflexivity. }
  split; [exact Hrun2|]. split; [|reflexivity].
  intros j Hj. rewrite Hs1, Hs2 by assumption. reflexivity.
Qed.

Lemma activate_resets_sequence_witness :
  exists inst_a m1 inst1 inst_b m3 inst3,
    lmng_activate (host_memory four (of_int 7)) host_instance = Done inst_a /\
    current inst_a = of_int 7 /\
    lmng_run (host_memory four (of_int 7)) inst_a 3 = Done (m1, inst1) /\
    lmng_activate m1 inst1 = Done inst_b /\
    lmng_run m1 inst_b 3 = Done (m3, inst3) /\
    m3 !! 22 = m1 !! 22 /\ current inst3 = current inst1.
Proof.
  set (m := host_memory four (of_int 7)).
  destruct (lmng_run m (set_current host_instance (of_int 7)) 3)
    as [[m1 inst1]| |] eqn:Hrun; [|vm_compute in Hrun; discriminate..].
  assert (Hm1 : load m1 11 = load m 11 /\ load m1 10 = load m 10 /\
                valid_buf m1 20 3).
  { vm_compute in Hrun. injection Hrun as <- <-.
    split; [reflexivity|]. split; [reflexivity|].
    intros i Hi. assert (i = 0 \/ i = 1 \/ i = 2) as [->|[->| ->]] by lia;
      (split; [discriminate | eexists; reflexivity]). }
  destruct Hm1 as (Hseed & Hr & Hbuf).
  destruct (activate_resets_sequence m m1 host_instance 3
              (set_current host_instance (of_int 7)) m1 inst1
              ltac:(lia) eq_refl Hrun Hseed Hr Hbuf)
    as (_ & _ & inst_b & m3 & inst3 & Hact2 & Hrun2 & Hsame & Hcur).
  exists (set_current host_instance (of_int 7)), m1, inst1, inst_b, m3, inst3.
  split; [reflexivity|]. split; [reflexivity|]. split; [exact Hrun|].
  split; [exact Hact2|]. split; [exact Hrun2|]. split; [|exact Hcur].
  apply (Hsame 2). lia.
Defined.

(** C9 as stated fails when the second call reads another growth rate,
    which happens with no action of the host when the block covers the
    cell of [r].  Here [r] is bound to cell 21, the second cell of the
    block, which holds 3, and the seed is 1/2.  The first three samples
    are 1/2, 3/4, 9/16, and cell 21 now holds 3/4.  After [activate] with
    the same seed the next three samples are 1/2, 3/16, 117/1024. *)
Lemma activate_same_seed_counterexample :
  lmng_activate (<[21 := of_int 3]> (host_memory four half))
      (lmng_connect host_instance PORT_R 21)
    = Done (set_current (lmng_connect host_instance PORT_R 21) half) /\
  lmng_run (<[21 := of_int 3]> (host_memory four half))
      (set_current (lmng_connect host_instance PORT_R 21) half) 3
    = Done (<[22 := S754_finite false 9437184 (-24)]>
              (<[21 := S754_finite false 12582912 (-24)]>
                 (<[20 := half]> (<[21 := of_int 3]> (host_memory four half)))),
            set_current (lmng_connect host_instance PORT_R 21)
              (S754_finite false 12386304 (-24))) /\
  lmng_activate
      (<[22 := S754_finite false 9437184 (-24)]>
         (<[21 := S754_finite false 12582912 (-24)]>
            (<[20 := half]> (<[21 := of_int 3]> (host_memory four half)))))
      (set_current (lmng_connect host_instance PORT_R 21)
         (S754_finite false 12386304 (-24)))
    = Done (set_current (lmng_connect host_instance PORT_R 21) half) /\
  lmng_run
      (<[22 := S754_finite false 9437184 (-24)]>
         (<[21 := S754_finite false 12582912 (-24)]>
            (<[20 := half]> (<[21 := of_int 3]> (host_memory four half)))))
      (set_current (lmng_connect host_instance PORT_R 21) half) 3
    = Done (<[22 := S754_finite false 15335424 (-27)]>
              (<[21 := S754_finite false 12582912 (-26)]>
                 (<[20 := half]>
                    (<[22 := S754_finite false 9437184 (-24)]>
                       (<[21 := S754_finite false 12582912 (-24)]>
                          (<[20 := half]>
                             (<[21 := of_int 3]> (host_memory four half))))))),
            set_current (lmng_connect host_instance PORT_R 21)
              (S754_finite false 10187424 (-27))) /\
  Binary32.eqb (S754_finite false 12582912 (-24))
    (S754_finite false 12582912 (-26)) = false.
Proof.
  split; [reflexivity|]. split; [vm_compute; reflexivity|].
  split; [reflexivity|]. split; [vm_compute; reflexivity|]. reflexivity.
Qed.

(** C10 (as amended).  A fresh instance has null port references and
    [current = 0], and [connect] leaves [current] alone.  So a call to
    [run] on it before any [activate], with the ports bound, a growth rate
    other than a NaN and at most [INT_MAX] samples, completes and writes
    zeros only. *)
Theorem fresh_instance_runs_zero :
  forall samplerate calls (m : gmap Z LADSPA_Data) n r0,
    0 <= n <= INT_MAX ->
    load m (r (connect_all lmng_state_new calls)) = Done r0 ->
    is_nan r0 = false ->
    valid_buf m (outbuf (connect_all lmng_state_new calls)) n ->
    lmng_new desc_plugin samplerate = Some lmng_state_new /\
    r lmng_state_new = NULL /\ seed lmng_state_new = NULL /\
    outbuf lmng_state_new = NULL /\ current lmng_state_new = zero /\
    exists m' inst',
      lmng_run m (connect_all lmng_state_new calls) n = Done (m', inst') /\
      is_zero (current inst') = true /\
      forall j, 0 <= j < n ->
        exists v, m' !! (outbuf (connect_all lmng_state_new calls) + j) = Some v /\
                  is_zero v = true.
Proof.
  intros samplerate calls m n r0 Hn Hr Hnan Hbuf.
  repeat (split; [reflexivity|]).
  pose proof (clamp_r_is_finite r0 Hnan) as Hfin.
  destruct (lmng_run_spec m _ n r0 Hn Hr Hbuf) as (m' & Hrun & Hs & _).
  rewrite connect_all_current in Hrun, Hs. simpl current in Hrun, Hs.
  eexists _, _. split; [exact Hrun|]. split.
  - simpl. apply recurrence_zero; [assumption | reflexivity].
  - intros j Hj. eexists. split; [apply Hs; assumption|].
    apply recurrence_zero; [assumption | reflexivity].
Qed.

Lemma fresh_instance_runs_zero_witness :
  exists m' inst',
    lmng_run (host_memory four half)
      (connect_all lmng_state_new [(PORT_R, 10); (PORT_SEED, 11); (PORT_OUT, 20)]) 3
      = Done (m', inst') /\
    is_zero (current inst') = true /\
    exists v, m' !! 22 = Some v /\ is_zero v = true.
Proof.
  destruct (fresh_instance_runs_zero 44100
              [(PORT_R, 10); (PORT_SEED, 11); (PORT_OUT, 20)]
              (host_memory four half) 3 four)
    as (_ & _ & _ & _ & _ & m' & inst' & Hrun & Hcur & Hs).
  - unfold INT_MAX. lia.
  - reflexivity.
  - reflexivity.
  - apply host_memory_valid_buf.
  - exists m', inst'. split; [exact Hrun|]. split; [exact Hcur|].
    apply (Hs 2). lia.
Defined.

(** C10 as stated fails when the growth rate read is a NaN: on a fresh
    instance with its ports bound the second sample is then a NaN. *)
Lemma fresh_instance_nan_counterexample :
  lmng_new desc_plugin 44100 = Some lmng_state_new /\
  lmng_run (host_memory S754_nan half)
    (connect_all lmng_state_new [(PORT_R, 10); (PORT_SEED, 11); (PORT_OUT, 20)]) 2
    = Done (<[21 := S754_nan]> (<[20 := zero]> (host_memory S754_nan half)),
            set_current host_instance S754_nan) /\
  is_zero S754_nan = false.
Proof.
  split; [reflexivity|]. split; [vm_compute; reflexivity | reflexivity].
Qed.

(** * Further properties of the code *)

(** ** Blocks *)

Lemma recurrence_add g x (a b : nat) :
  recurrence g (recurrence g x a) b = recurrence g x (a + b).
Proof.
  induction b as [|b IH].
  - rewrite Nat.add_0_r. reflexivity.
  - rewrite Nat.add_succ_r. simpl. rewrite IH. reflexivity.
Qed.

Lemma lmng_run_completes inst m n :
  0 <= n ->
  completes (lmng_run m inst n) = true ->
  valid_ptr m (r inst) /\ valid_buf m (outbuf inst) n /\ n <= INT_MAX.
Proof.
  intros Hn Hc. destruct (lmng_run m inst n) as [[m' inst']| |] eqn:Hrun;
    try discriminate.
  destruct (lmng_run_Done_spec _ _ _ _ _ Hn Hrun) as (r0 & Hr & Hmax & Hbuf & _).
  apply load_Done in Hr as [Hnull Hr].
  split; [split; [exact Hnull | rewrite Hr; eauto]|]. split; assumption.
Qed.

(** X1.  [lmng_run] on a block of at most [INT_MAX] samples, with [r]
    readable and the block writable: the call completes; sample [j] is
    state [j] of the recurrence started at [current] with the clamped
    growth rate, which is read once, before the loop, so that the block may
    even cover the cell of [r]; [current] ends as state [n]; the three
    bindings are kept; no cell outside the block changes, and no cell is
    created or lost. *)
Theorem lmng_run_block_and_frame :
  forall m inst n r0,
    0 <= n <= INT_MAX ->
    load m (r inst) = Done r0 ->
    valid_buf m (outbuf inst) n ->
    exists m' inst',
      lmng_run m inst n = Done (m', inst') /\
      (forall j, 0 <= j < n ->
         m' !! (outbuf inst + j)
           = Some (recurrence (clamp_r r0) (current inst) (Z.to_nat j))) /\
      current inst' = recurrence (clamp_r r0) (current inst) (Z.to_nat n) /\
      r inst' = r inst /\ seed inst' = seed inst /\ outbuf inst' = outbuf inst /\
      (forall p, ~ (outbuf inst <= p < outbuf inst + n) -> m' !! p = m !! p) /\
      (forall p, is_Some (m' !! p) <-> is_Some (m !! p)).
Proof.
  intros m inst n r0 Hn Hr Hbuf.
  destruct (lmng_run_spec m inst n r0 Hn Hr Hbuf) as (m' & Hrun & Hs & Hf).
  eexists m', _. split; [exact Hrun|]. split; [exact Hs|].
  repeat (split; [reflexivity|]). split; [exact Hf|].
  intros p.
  destruct (decide (outbuf inst <= p < outbuf inst + n)) as [Hin|Hout].
  - replace p with (outbuf inst + (p - outbuf inst)) by lia.
    rewrite Hs by lia. split; intros _; [|eauto].
    apply Hbuf. lia.
  - rewrite Hf by assumption. reflexivity.
Qed.

Lemma lmng_run_block_and_frame_witness :
  exists m' inst',
    lmng_run (host_memory (of_int 10) half) (set_current host_instance half) 3
      = Done (m', inst') /\
    (forall j, 0 <= j < 3 ->
       m' !! (outbuf (set_current host_instance half) + j)
         = Some (recurrence (clamp_r (of_int 10))
                   (current (set_current host_instance half)) (Z.to_nat j))) /\
    current inst' = recurrence (clamp_r (of_int 10))
                      (current (set_current host_instance half)) (Z.to_nat 3) /\
    r inst' = r (set_current host_instance half) /\
    seed inst' = seed (set_current host_instance half) /\
    outbuf inst' = outbuf (set_current host_instance half) /\
    (forall p, ~ (outbuf (set_current host_instance half) <= p
                  < outbuf (set_current host_instance half) + 3) ->
       m' !! p = host_memory (of_int 10) half !! p) /\
    (forall p, is_Some (m' !! p) <-> is_Some (host_memory (of_int 10) half !! p)).
Proof.
  apply (lmng_run_block_and_frame (host_memory (of_int 10) half)
           (set_current host_instance half) 3 (of_int 10)).
  - unfold INT_MAX. lia.
  - reflexivity.
  - apply host_memory_valid_buf.
Defined.

(** X2.  [lmng_run] completes exactly when the cell behind [r] can be
    read, each of the [sampleCount] cells of the block can be written and
    the count does not exceed [INT_MAX].  Nothing else is needed: the seed
    port may be unbound, and for an empty block so may the output port;
    but [r] is read even then. *)
Theorem lmng_run_completes_iff :
  forall m inst n,
    0 <= n ->
    (completes (lmng_run m inst n) = true <->
     valid_ptr m (r inst) /\ valid_buf m (outbuf inst) n /\ n <= INT_MAX).
Proof.
  intros m inst n Hn. split.
  - apply lmng_run_completes. assumption.
  - intros (Hr & Hbuf & Hmax).
    destruct (load_valid m (r inst) Hr) as (r0 & Hl & _).
    destruct (lmng_run_spec m inst n r0 (conj Hn Hmax) Hl Hbuf) as (m' & -> & _).
    reflexivity.
Qed.

Lemma lmng_run_completes_iff_witness :
  (completes (lmng_run (host_memory four half) (lmng_connect lmng_state_new PORT_R 10) 0)
     = true <->
   valid_ptr (host_memory four half) (r (lmng_connect lmng_state_new PORT_R 10)) /\
   valid_buf (host_memory four half) (outbuf (lmng_connect lmng_state_new PORT_R 10)) 0 /\
   0 <= INT_MAX) /\
  completes (lmng_run (host_memory four half) (lmng_connect lmng_state_new PORT_R 10) 0)
    = true /\
  completes (lmng_run (host_memory four half) lmng_state_new 0) = false /\
  completes (lmng_run (host_memory four half) host_instance 4) = false.
Proof.
  split; [|split; [|split]].
  - apply (lmng_run_completes_iff (host_memory four half)
             (lmng_connect lmng_state_new PORT_R 10) 0). lia.
  - reflexivity.
  - reflexivity.
  - reflexivity.
Defined.

(** X3.  Blocks compose: a block of [n1] samples followed, with the output
    port rebound to the cell after it, by a block of [n2] samples leaves
    the memory and the state that one block of [n1 + n2] samples leaves,
    provided the cell of [r] is not among the first [n1] cells written. *)
Theorem lmng_run_blocks_compose :
  forall m inst n1 n2 r0,
    0 <= n1 -> 0 <= n2 -> n1 + n2 <= INT_MAX ->
    load m (r inst) = Done r0 ->
    valid_buf m (outbuf inst) (n1 + n2) ->
    ~ (outbuf inst <= r inst < outbuf inst + n1) ->
    exists m1 inst1 m2 inst2,
      lmng_run m inst n1 = Done (m1, inst1) /\
      lmng_run m1 (lmng_connect inst1 PORT_OUT (outbuf inst + n1)) n2
        = Done (m2, inst2) /\
      lmng_run m inst (n1 + n2) = Done (m2, lmng_connect inst2 PORT_OUT (outbuf inst)).
Proof.
  intros m inst n1 n2 r0 Hn1 Hn2 Hmax Hr Hbuf Hsep.
  destruct (lmng_run_spec m inst n1 r0 ltac:(lia) Hr) as (m1 & Hrun1 & Hs1 & Hf1).
  { intros j Hj. apply Hbuf. lia. }
  set (x1 := recurrence (clamp_r r0) (current inst) (Z.to_nat n1)) in *.
  set (inst1 := set_current inst x1) in *.
  set (inst1' := lmng_connect inst1 PORT_OUT (outbuf inst + n1)).
  assert (Hr1 : load m1 (r inst1') = Done r0).
  { apply load_Done. apply load_Done in Hr as [Hnull Hr].
    split; [exact Hnull|]. change (r inst1') with (r inst).
    rewrite Hf1 by exact Hsep. exact Hr. }
  assert (Hbuf1 : valid_buf m1 (outbuf inst1') n2).
  { change (outbuf inst1') with (outbuf inst + n1). intros j Hj.
    destruct (Hbuf (n1 + j) ltac:(lia)) as [Hnull Hsome].
    rewrite Z.add_assoc in Hnull, Hsome. split; [exact Hnull|].
    rewrite Hf1 by lia. exact Hsome. }
  destruct (lmng_run_spec m1 inst1' n2 r0 ltac:(lia) Hr1 Hbuf1)
    as (m2 & Hrun2 & Hs2 & Hf2).
  destruct (lmng_run_spec m inst (n1 + n2) r0 ltac:(lia) Hr Hbuf)
    as (m' & Hrun & Hs & Hf).
  change (outbuf inst1') with (outbuf inst + n1) in Hs2, Hf2.
  change (current inst1') with x1 in Hrun2, Hs2.
  exists m1, inst1, m2, (set_current inst1' (recurrence (clamp_r r0) x1 (Z.to_nat n2))).
  split; [exact Hrun1|]. split; [exact Hrun2|]. rewrite Hrun.
  f_equal. f_equal.
  - apply map_eq. intros p.
    destruct (decide (outbuf inst <= p < outbuf inst + n1)) as [H1|H1].
    + rewrite Hf2 by lia.
      replace p with (outbuf inst + (p - outbuf inst)) by lia.
      rewrite Hs, Hs1 by lia. reflexivity.
    + destruct (decide (outbuf inst + n1 <= p < outbuf inst + n1 + n2)) as [H2|H2].
      * replace p with (outbuf inst + (p - outbuf inst)) at 1 by lia.
        rewrite Hs by lia.
        replace p with (outbuf inst + n1 + (p - outbuf inst - n1)) by lia.
        rewrite Hs2 by lia. unfold x1. rewrite recurrence_add.
        do 2 f_equal. lia.
      * rewrite Hf, Hf2, Hf1 by lia. reflexivity.
  - unfold set_current, lmng_connect, inst1', inst1, x1; simpl.
    rewrite recurrence_add. rewrite Z2Nat.inj_add by lia. reflexivity.
Qed.

Lemma lmng_run_blocks_compose_witness :
  exists m1 inst1 m2 inst2,
    lmng_run (host_memory four half) (set_current host_instance half) 1
      = Done (m1, inst1) /\
    lmng_run m1 (lmng_connect inst1 PORT_OUT
                   (outbuf (set_current host_instance half) + 1)) 2
      = Done (m2, inst2) /\
    lmng_run (host_memory four half) (set_current host_instance half) (1 + 2)
      = Done (m2, lmng_connect inst2 PORT_OUT (outbuf (set_current host_instance half))).
Proof.
  apply (lmng_run_blocks_compose (host_memory four half)
           (set_current host_instance half) 1 2 four).
  - lia.
  - lia.
  - unfold INT_MAX. lia.
  - reflexivity.
  - apply host_memory_valid_buf.
  - simpl. lia.
Defined.

(** X4.  Of the host's memory [lmng_run] reads the cell behind [r] and
    nothing else: two calls on memories that differ in one other cell, the
    seed's for instance, have the same outcome, write the same block, end
    in the same state and leave every other cell alike.  A seed changed
    after [activate] is not seen. *)
Theorem lmng_run_reads_only_r :
  forall a m1 m2 inst n,
    0 <= n -> a <> r inst -> agree_off a m1 m2 ->
    same_run a (outbuf inst) n (lmng_run m1 inst n) (lmng_run m2 inst n).
Proof.
  intros a m1 m2 inst n Hn Ha Hag.
  assert (Hload : load m2 (r inst) = load m1 (r inst)).
  { unfold load. destruct Hag as [Hoff _]. rewrite (Hoff (r inst)) by congruence.
    reflexivity. }
  pose proof (lmng_run_fuel m1 inst n) as Hf1.
  pose proof (lmng_run_fuel m2 inst n) as Hf2.
  destruct (lmng_run m1 inst n) as [[m1' s1]|u1|] eqn:E1;
    destruct (lmng_run m2 inst n) as [[m2' s2]|u2|] eqn:E2;
    try congruence;
    unfold lmng_run in E1, E2; rewrite Hload in E2;
    destruct (load m1 (r inst)) as [r0| |] eqn:Hr; simpl obind in E1, E2;
    try congruence;
    pose proof (run_loop_agree a (clamp_r r0) n (Z.to_nat n) 0 m1 m2 inst Hag) as H;
    rewrite E1, E2 in H; try contradiction; try exact H.
  destruct H as [-> [Hoff _]]. simpl. split; [reflexivity|]. split; [|exact Hoff].
  assert (R1 : lmng_run m1 inst n = Done (m1', s2))
    by (unfold lmng_run; rewrite Hr; exact E1).
  assert (R2 : lmng_run m2 inst n = Done (m2', s2))
    by (unfold lmng_run; rewrite Hload; exact E2).
  destruct (lmng_run_Done_spec _ _ _ _ _ Hn R1) as (ra & Hra & _ & _ & _ & Hs1 & _).
  destruct (lmng_run_Done_spec _ _ _ _ _ Hn R2) as (rb & Hrb & _ & _ & _ & Hs2 & _).
  rewrite Hr in Hra. rewrite Hload in Hrb.
  injection Hra as <-. injection Hrb as <-.
  intros j Hj. rewrite Hs1, Hs2 by exact Hj. reflexivity.
Qed.

Lemma lmng_run_reads_only_r_witness :
  same_run 11 (outbuf host_instance) 3
    (lmng_run (host_memory four half) host_instance 3)
    (lmng_run (host_memory four one) host_instance 3).
Proof.
  apply (lmng_run_reads_only_r 11 (host_memory four half) (host_memory four one)
           host_instance 3).
  - lia.
  - discriminate.
  - split.
    + intros p Hp. unfold host_memory.
      destruct (decide (p = 10)) as [->|H10]; [reflexivity|].
      rewrite !(lookup_insert_ne _ 10) by congruence.
      rewrite !(lookup_insert_ne _ 11) by congruence. reflexivity.
    + split; intros _; eexists; reflexivity.
Defined.

(** ** The clamp and the range hints *)

(** X5.  The clamp of [lmng_run] and the range hint the descriptor gives
    for the port of [r] agree: a growth rate that is not a NaN is used
    unchanged exactly when it lies within the bounds of the hint, and the
    rate used always lies within them. *)
Theorem clamp_r_fixes_exactly_the_hinted_range :
  forall h r0,
    nth_error plugin_hints (Z.to_nat PORT_R) = Some h ->
    is_nan r0 = false -> valid r0 = true ->
    (clamp_r r0 = r0 <-> within_hint h r0 = true) /\
    within_hint h (clamp_r r0) = true.
Proof.
  intros h r0 Hh Hnan Hv. injection Hh as <-.
  unfold within_hint. cbn [LowerBound UpperBound].
  destruct (clamp_r_range r0 Hnan Hv) as (_ & H0 & H4).
  split; [split|].
  - intros E. rewrite E in H0, H4. rewrite H0, H4. reflexivity.
  - intros H. apply andb_true_iff in H as [Ha Hb]. apply clamp_r_in_range; assumption.
  - rewrite H0, H4. reflexivity.
Qed.

Lemma clamp_r_fixes_exactly_the_hinted_range_witness :
  (clamp_r half = half <->
   within_hint {| HintDescriptor := [LADSPA_HINT_BOUNDED_BELOW; LADSPA_HINT_BOUNDED_ABOVE;
                                      LADSPA_HINT_DEFAULT_HIGH];
                  LowerBound := zero; UpperBound := four |} half = true) /\
  within_hint {| HintDescriptor := [LADSPA_HINT_BOUNDED_BELOW; LADSPA_HINT_BOUNDED_ABOVE;
                                     LADSPA_HINT_DEFAULT_HIGH];
                 LowerBound := zero; UpperBound := four |} (clamp_r half) = true.
Proof.
  apply (clamp_r_fixes_exactly_the_hinted_range _ half); reflexivity.
Defined.

(** X6.  A host that keeps the seed within the bounds hinted for the seed
    port gets samples within the bounds hinted for the output port,
    whatever growth rate other than a NaN it supplies: [lmng_activate]
    followed by [lmng_run] on at most [INT_MAX] samples completes, every
    sample lies within the output hint, and the state left behind lies
    within the seed hint again. *)
Theorem hinted_seed_gives_hinted_output :
  forall hs ho m inst n r0 s,
    nth_error plugin_hints (Z.to_nat PORT_SEED) = Some hs ->
    nth_error plugin_hints (Z.to_nat PORT_OUT) = Some ho ->
    0 <= n <= INT_MAX ->
    load m (r inst) = Done r0 -> is_nan r0 = false -> valid r0 = true ->
    load m (seed inst) = Done s -> valid s = true -> within_hint hs s = true ->
    valid_buf m (outbuf inst) n ->
    exists inst1 m' inst',
      lmng_activate m inst = Done inst1 /\
      lmng_run m inst1 n = Done (m', inst') /\
      (forall j, 0 <= j < n ->
         exists v, m' !! (outbuf inst + j) = Some v /\ within_hint ho v = true) /\
      within_hint hs (current inst') = true.
Proof.
  intros hs ho m inst n r0 s Hhs Hho Hn Hr Hnan Hv Hs Hvs Hws Hbuf.
  injection Hhs as <-. injection Hho as <-.
  unfold within_hint in *. cbn [LowerBound UpperBound] in *.
  change (in_unit s = true) in Hws.
  destruct (clamp_r_range r0 Hnan Hv) as (Hvg & Hg0 & Hg4).
  unfold lmng_activate. rewrite Hs. simpl obind.
  destruct (lmng_run_spec m (set_current inst s) n r0 Hn Hr Hbuf)
    as (m' & Hrun & Hsamples & _).
  eexists _, m', _. split; [reflexivity|]. split; [exact Hrun|].
  simpl in Hsamples. split.
  - intros j Hj. eexists. split; [apply Hsamples; exact Hj|].
    apply (recurrence_in_unit (clamp_r r0) s (Z.to_nat j)); assumption.
  - apply (recurrence_in_unit (clamp_r r0) s (Z.to_nat n)); assumption.
Qed.

Lemma hinted_seed_gives_hinted_output_witness :
  exists inst1 m' inst',
    lmng_activate (host_memory (of_int 10) half) host_instance = Done inst1 /\
    lmng_run (host_memory (of_int 10) half) inst1 3 = Done (m', inst') /\
    (forall j, 0 <= j < 3 ->
       exists v, m' !! (outbuf host_instance + j) = Some v /\
         within_hint {| HintDescriptor := [LADSPA_HINT_BOUNDED_BELOW;
                                            LADSPA_HINT_BOUNDED_ABOVE];
                        LowerBound := zero; UpperBound := one |} v = true) /\
    within_hint {| HintDescriptor := [LADSPA_HINT_BOUNDED_BELOW; LADSPA_HINT_BOUNDED_ABOVE;
                                       LADSPA_HINT_DEFAULT_0];
                   LowerBound := zero; UpperBound := one |} (current inst') = true.
Proof.
  apply (hinted_seed_gives_hinted_output _ _ (host_memory (of_int 10) half)
           host_instance 3 (of_int 10) half); try reflexivity.
  - unfold INT_MAX. lia.
  - apply host_memory_valid_buf.
Defined.

(** ** NaN *)

Lemma logistic_nan g x :
  is_nan g = true \/ is_nan x = true -> logistic g x = S754_nan.
Proof.
  intros [H|H].
  - destruct g; try discriminate. reflexivity.
  - destruct x; try discriminate. destruct g; reflexivity.
Qed.

Lemma recurrence_nan g x k :
  is_nan g = true \/ is_nan x = true -> recurrence g x (S k) = S754_nan.
Proof.
  intros H. induction k as [|k IH].
  - simpl. apply logistic_nan, H.
  - change (recurrence g x (S (S k))) with (logistic g (recurrence g x (S k))).
    rewrite IH. apply logistic_nan. right. reflexivity.
Qed.

(** X7.  A NaN is never got rid of by [lmng_run].  When the growth rate
    read or [current] is a NaN, every sample of the block after the first
    is a NaN and so is [current] after a block of at least one sample; and
    a [current] that is a NaN at entry is one at exit, whatever the growth
    rate.  Only [lmng_activate] brings the state back. *)
Theorem nan_is_absorbing :
  forall m inst n m' inst' r0,
    0 <= n ->
    load m (r inst) = Done r0 ->
    lmng_run m inst n = Done (m', inst') ->
    is_nan r0 = true \/ is_nan (current inst) = true ->
    (forall j, 1 <= j < n -> m' !! (outbuf inst + j) = Some S754_nan) /\
    (1 <= n -> current inst' = S754_nan) /\
    (is_nan (current inst) = true -> is_nan (current inst') = true).
Proof.
  intros m inst n m' inst' r0 Hn Hr Hrun Hnan.
  destruct (lmng_run_Done_spec _ _ _ _ _ Hn Hrun)
    as (r1 & Hr1 & _ & _ & -> & Hs & _).
  rewrite Hr in Hr1. injection Hr1 as <-.
  assert (Hg : is_nan (clamp_r r0) = true \/ is_nan (current inst) = true).
  { destruct Hnan as [H|H]; [left | right; exact H].
    destruct r0; try discriminate. reflexivity. }
  split; [|split].
  - intros j Hj. rewrite Hs by lia.
    replace (Z.to_nat j) with (S (Z.to_nat (j - 1))) by lia.
    rewrite recurrence_nan by exact Hg. reflexivity.
  - intros H1. simpl.
    replace (Z.to_nat n) with (S (Z.to_nat (n - 1))) by lia.
    apply recurrence_nan, Hg.
  - intros Hc. simpl. destruct (Z.to_nat n) as [|k]; [exact Hc|].
    rewrite recurrence_nan by exact Hg. reflexivity.
Qed.

Lemma nan_is_absorbing_witness :
  (forall j, 1 <= j < 3 ->
     <[22 := S754_nan]> (<[21 := S754_nan]> (<[20 := half]> (host_memory S754_nan half)))
       !! (outbuf (set_current host_instance half) + j) = Some S754_nan) /\
  (1 <= 3 -> current (set_current host_instance S754_nan) = S754_nan) /\
  (is_nan (current (set_current host_instance half)) = true ->
   is_nan (current (set_current host_instance S754_nan)) = true).
Proof.
  apply (nan_is_absorbing (host_memory S754_nan half) (set_current host_instance half) 3
           _ _ S754_nan).
  - lia.
  - reflexivity.
  - vm_compute. reflexivity.
  - left. reflexivity.
Defined.

(** ** States outside the unit interval *)

Lemma rounded_to_sign s n E res : rounded_to s n E res -> has_sign s res.
Proof.
  intros [[_ ->]|(m & e & _ & _ & Hc & ->)].
  - split; [reflexivity | exact I].
  - destruct (Z.leb_spec e (emax - prec)).
    + split; [|reflexivity]. apply Binary32Lemmas.valid_finite. auto.
    + split; reflexivity.
Qed.

(** the sign of a product of finite data is the product of the signs *)
Lemma mul_finite_sign sa ma ea sb mb eb :
  canonical ma ea -> canonical mb eb ->
  has_sign (xorb sa sb) (mul (S754_finite sa ma ea) (S754_finite sb mb eb)).
Proof.
  intros Ha Hb.
  pose proof (Binary32Lemmas.mul_aligned ma ea mb eb Ha Hb) as Hal.
  destruct (Binary32Lemmas.binary_round_aux_spec (xorb sa sb) (ma * mb) (ea + eb))
    as (b & _ & _ & _ & Hr); [lia|].
  apply rounded_to_sign in Hr. exact Hr.
Qed.

Lemma mul_has_sign sa sb a b :
  has_sign sa a -> has_sign sb b -> has_sign (xorb sa sb) (mul a b).
Proof.
  intros [Hva Ha] [Hvb Hb].
  destruct a as [s1|s1| |s1 m1 e1], b as [s2|s2| |s2 m2 e2];
    try (split; [reflexivity | exact I]);
    try (subst; split; reflexivity).
  subst. apply Binary32Lemmas.valid_finite in Hva as [Hc1 _].
  apply Binary32Lemmas.valid_finite in Hvb as [Hc2 _].
  apply mul_finite_sign; assumption.
Qed.

Lemma binary_normalize_sign D ez :
  has_sign (D <? 0) (binary_normalize prec emax D ez false).
Proof.
  destruct D as [|d|d]; cbn [binary_normalize].
  - split; [reflexivity | exact I].
  - destruct (Binary32Lemmas.binary_round_spec false d ez)
      as (mz & ez' & b & _ & _ & _ & _ & _ & Hr).
    apply rounded_to_sign in Hr. exact Hr.
  - destruct (Binary32Lemmas.binary_round_spec true d ez)
      as (mz & ez' & b & _ & _ & _ & _ & _ & Hr).
    apply rounded_to_sign in Hr. exact Hr.
Qed.

Lemma has_sign_zero s s' : has_sign s (S754_zero s').
Proof. split; [reflexivity | exact I]. Qed.

(** [1 - x] for a negative [x] is not negative *)
Lemma sub_one_negative x :
  match x with S754_infinity true | S754_finite true _ _ => True | _ => False end ->
  has_sign false (sub one x).
Proof.
  destruct x as [s|s| |s m e]; try contradiction; destruct s; try contradiction;
    intros _.
  - split; reflexivity.
  - unfold sub, one, SFsub. set (ez := Z.min (-23) e).
    destruct (Binary32Lemmas.shl_align_spec 8388608 (-23) ez) as (m1 & e1 & H1 & _).
    destruct (Binary32Lemmas.shl_align_spec m e ez) as (m2 & e2 & H2 & _).
    rewrite H1, H2. cbn [fst cond_Zopp Z.opp Z.sub Z.add].
    apply (binary_normalize_sign (Zpos (m1 + m2)) ez).
Qed.

(** [1 - x] for [x > 1] is not positive *)
Lemma sub_one_above x :
  valid x = true -> leb zero x = true -> leb x one = false ->
  has_sign true (sub one x).
Proof.
  intros Hv H0 H1. destruct x as [s|s| |s m e]; try discriminate.
  - destruct s; [discriminate|]. split; reflexivity.
  - destruct s; [discriminate|].
    apply Binary32Lemmas.valid_finite in Hv as [Hc Hb].
    pose proof (Binary32Lemmas.canonical_digits _ _ Hc) as (_ & He & _).
    assert (HX : 2 ^ 149 < pv 149 m e).
    { apply Z.nle_gt. intros Hle.
      assert (leb (S754_finite false m e) (S754_finite false 8388608 (-23)) = true);
        [|unfold one in H1; congruence].
      apply (Binary32Lemmas.leb_value 149 m e 8388608 (-23));
        [assumption | apply Binary32Lemmas.canonical_pow2; lia | lia | lia |].
      rewrite Binary32Lemmas.pv_pow2 by lia. exact Hle. }
    unfold pv in HX.
    unfold sub, one, SFsub. set (ez := Z.min (-23) e).
    destruct (Binary32Lemmas.shl_align_spec 8388608 (-23) ez)
      as (m1 & e1 & E1 & He1 & Hm1).
    destruct (Binary32Lemmas.shl_align_spec m e ez) as (m2 & e2 & E2 & He2 & Hm2).
    rewrite E1, E2. cbn [fst cond_Zopp].
    assert (e1 = ez) by (unfold ez in *; lia). subst e1.
    assert (e2 = ez) by (unfold ez in *; lia). subst e2.
    assert (Hez : -149 <= ez <= -23) by (unfold ez; lia).
    assert (Hee : ez <= e) by (unfold ez; lia).
    clearbody ez.
    assert (Hc0 : 0 < 2 ^ (ez + 149)) by (apply Binary32Lemmas.pow2_pos; lia).
    assert (HV1 : Zpos m1 * 2 ^ (ez + 149) = 2 ^ 149).
    { rewrite Hm1. change (Zpos 8388608) with (2 ^ 23).
      rewrite <- !Binary32Lemmas.pow2_add by lia. f_equal. lia. }
    assert (HV2 : Zpos m2 * 2 ^ (ez + 149) = Zpos m * 2 ^ (e + 149)).
    { rewrite Hm2. rewrite <- Z.mul_assoc, <- Binary32Lemmas.pow2_add by lia.
      do 2 f_equal. lia. }
    assert (HD : Zpos m1 - Zpos m2 < 0).
    { clear - Hc0 HV1 HV2 HX. nia. }
    pose proof (binary_normalize_sign (Zpos m1 - Zpos m2) ez) as Hs.
    destruct (Z.ltb_spec (Zpos m1 - Zpos m2) 0); [exact Hs | lia].
Qed.

(** a datum of minus sign is not above zero, as C's [0 < y] decides it *)
Lemma has_sign_true_not_positive y : has_sign true y -> ltb zero y = false.
Proof.
  intros [_ H]. destruct y as [s|s| |s m e]; try reflexivity; subst; reflexivity.
Qed.

(** a growth rate in [0, 4] is a zero or a positive finite datum *)
Lemma rate_has_sign g :
  valid g = true -> leb zero g = true -> leb g four = true ->
  has_sign false g /\ is_finite g = true.
Proof.
  intros Hv H0 H4. destruct g as [s|s| |s m e]; try discriminate.
  - split; [apply has_sign_zero | reflexivity].
  - destruct s; discriminate.
  - destruct s; [discriminate|]. split; [split|]; auto.
Qed.

(** From a state that is not in (0, 1] the map leads to a zero, a negative
    datum or a NaN: [g * x] and [1 - x] are of opposite signs when [x] is
    negative or above 1. *)
Lemma logistic_outside_unit g x :
  valid g = true -> leb zero g = true -> leb g four = true ->
  valid x = true ->
  in_unit x = false \/ ltb zero x = false ->
  has_sign true (logistic g x).
Proof.
  intros Hvg Hg0 Hg4 Hvx Hx.
  destruct (rate_has_sign g Hvg Hg0 Hg4) as [Hsg Hfg].
  assert (Hcases :
    is_zero x = true \/ x = S754_nan \/
    (has_sign true x /\ has_sign false (sub one x)) \/
    (has_sign false x /\ has_sign true (sub one x))).
  { destruct x as [s|s| |s m e].
    - left. reflexivity.
    - right. right. destruct s.
      + left. split; [split; reflexivity | split; reflexivity].
      + right. split; [split; reflexivity | split; reflexivity].
    - right. left. reflexivity.
    - right. right. destruct s.
      + left. split; [split; [assumption | reflexivity]|].
        apply sub_one_negative. exact I.
      + right. split; [split; [assumption | reflexivity]|].
        destruct Hx as [Hx|Hx]; [|discriminate].
        unfold in_unit in Hx. apply andb_false_iff in Hx as [Hx|Hx]; [discriminate|].
        apply sub_one_above; [assumption | reflexivity | assumption]. }
  destruct Hcases as [Hz|[->|[[Hsx Hsq]|[Hsx Hsq]]]].
  - pose proof (logistic_zero g x Hfg Hz) as Hy.
    destruct (logistic g x); try discriminate. apply has_sign_zero.
  - rewrite logistic_nan by (right; reflexivity). split; [reflexivity | exact I].
  - unfold logistic. rewrite Binary32Lemmas.of_int_1.
    apply (mul_has_sign true false); [|assumption].
    apply (mul_has_sign false true); assumption.
  - unfold logistic. rewrite Binary32Lemmas.of_int_1.
    apply (mul_has_sign false true); [|assumption].
    apply (mul_has_sign false false); assumption.
Qed.

Lemma recurrence_outside_unit g x k :
  valid g = true -> leb zero g = true -> leb g four = true ->
  valid x = true ->
  in_unit x = false \/ ltb zero x = false ->
  has_sign true (recurrence g x (S k)).
Proof.
  intros Hvg Hg0 Hg4 Hvx Hx. induction k as [|k IH].
  - simpl. apply logistic_outside_unit; assumption.
  - change (recurrence g x (S (S k))) with (logistic g (recurrence g x (S k))).
    destruct IH as [IHv IHs].
    apply logistic_outside_unit; try assumption.
    right. apply has_sign_true_not_positive. split; assumption.
Qed.

(** X8.  A state outside (0, 1] never comes back into it.  When [current]
    is a well-formed datum that is not in [0, 1] (a seed that
    [lmng_activate] copied unchecked) or is not above 0, and the growth
    rate is not a NaN, every sample of a block after the first fails the
    test [0 < v] (it is a zero, negative, minus infinity or a NaN), and so
    does [current] at the end: the same holds for the next block. *)
Theorem state_outside_unit_never_returns :
  forall m inst n m' inst' r0,
    0 <= n ->
    load m (r inst) = Done r0 -> is_nan r0 = false -> valid r0 = true ->
    valid (current inst) = true ->
    in_unit (current inst) = false \/ ltb zero (current inst) = false ->
    lmng_run m inst n = Done (m', inst') ->
    (forall j, 1 <= j < n ->
       exists v, m' !! (outbuf inst + j) = Some v /\ ltb zero v = false) /\
    valid (current inst') = true /\
    (in_unit (current inst') = false \/ ltb zero (current inst') = false).
Proof.
  intros m inst n m' inst' r0 Hn Hr Hnan Hv Hvx Hx Hrun.
  destruct (lmng_run_Done_spec _ _ _ _ _ Hn Hrun)
    as (r1 & Hr1 & _ & _ & -> & Hs & _).
  rewrite Hr in Hr1. injection Hr1 as <-.
  destruct (clamp_r_range r0 Hnan Hv) as (Hvg & Hg0 & Hg4).
  assert (Hk : forall k, has_sign true (recurrence (clamp_r r0) (current inst) (S k))).
  { intros k. apply recurrence_outside_unit; assumption. }
  split; [|cbn [current set_current]; destruct (Z.to_nat n) as [|k]].
  - intros j Hj. eexists. split; [apply Hs; lia|].
    replace (Z.to_nat j) with (S (Z.to_nat (j - 1))) by lia.
    apply has_sign_true_not_positive, Hk.
  - split; assumption.
  - split; [apply Hk|]. right. apply has_sign_true_not_positive, Hk.
Qed.

Lemma state_outside_unit_never_returns_witness :
  (forall j, 1 <= j < 3 ->
     exists v,
       <[22 := of_int (-288)]> (<[21 := of_int (-8)]> (<[20 := of_int 2]>
          (host_memory four (of_int 2))))
         !! (outbuf (set_current host_instance (of_int 2)) + j) = Some v /\
       ltb zero v = false) /\
  valid (current (set_current host_instance (of_int (-332928)))) = true /\
  (in_unit (current (set_current host_instance (of_int (-332928)))) = false \/
   ltb zero (current (set_current host_instance (of_int (-332928)))) = false).
Proof.
  apply (state_outside_unit_never_returns (host_memory four (of_int 2))
           (set_current host_instance (of_int 2)) 3 _ _ four).
  - lia.
  - reflexivity.
  - reflexivity.
  - reflexivity.
  - reflexivity.
  - left. reflexivity.
  - vm_compute. reflexivity.
Defined.

(** ** A growth rate of zero *)

Lemma clamp_r_nonpositive r0 : leb r0 zero = true -> is_zero (clamp_r r0) = true.
Proof.
  intros H. destruct r0 as [s|s| |s m e]; try discriminate;
    destruct s; try discriminate; reflexivity.
Qed.

Lemma logistic_rate_zero g x :
  is_zero g = true -> valid x = true -> in_unit x = true ->
  is_zero (logistic g x) = true.
Proof.
  intros Hg Hv Hx. unfold in_unit in Hx. apply andb_true_iff in Hx as [Hx0 Hx1].
  destruct (Binary32Lemmas.between_value 149 x (-23) ltac:(lia) ltac:(lia) Hv Hx0 Hx1)
    as (X & HX & HX1).
  change (-23 + 23 + 149) with 149 in HX1.
  destruct (Binary32Lemmas.sub_one_spec 149 x X ltac:(lia) HX HX1) as (Q & HQ & _).
  destruct g as [sg| | |]; try discriminate.
  unfold logistic, mul, sub. rewrite Binary32Lemmas.of_int_1.
  destruct HQ as [[_ [sq Eq]]|(mq & eq & Eq & _)]; rewrite Eq;
    destruct HX as [[_ [sx ->]]|(mx & ex & -> & _)]; reflexivity.
Qed.

(** X9.  A growth rate at or below zero silences the generator: it is
    clamped to a zero, so from a state in [0, 1] every sample of the block
    after the first is a zero, and so is [current] after a block of at
    least one sample. *)
Theorem rate_at_most_zero_gives_silence :
  forall m inst n m' inst' r0,
    0 <= n ->
    load m (r inst) = Done r0 -> leb r0 zero = true ->
    valid (current inst) = true -> in_unit (current inst) = true ->
    lmng_run m inst n = Done (m', inst') ->
    (forall j, 1 <= j < n ->
       exists v, m' !! (outbuf inst + j) = Some v /\ is_zero v = true) /\
    (1 <= n -> is_zero (current inst') = true).
Proof.
  intros m inst n m' inst' r0 Hn Hr Hle Hv Hx Hrun.
  destruct (lmng_run_Done_spec _ _ _ _ _ Hn Hrun)
    as (r1 & Hr1 & _ & _ & -> & Hs & _).
  rewrite Hr in Hr1. injection Hr1 as <-.
  pose proof (clamp_r_nonpositive r0 Hle) as Hg.
  assert (Hfin : is_finite (clamp_r r0) = true)
    by (destruct (clamp_r r0); try discriminate; reflexivity).
  assert (Hk : forall k, is_zero (recurrence (clamp_r r0) (current inst) (S k)) = true).
  { intros k. change (S k) with (1 + k)%nat. rewrite <- recurrence_add.
    apply recurrence_zero; [exact Hfin|]. simpl.
    apply logistic_rate_zero; assumption. }
  split.
  - intros j Hj. eexists. split; [apply Hs; lia|].
    replace (Z.to_nat j) with (S (Z.to_nat (j - 1))) by lia. apply Hk.
  - intros H1. simpl. replace (Z.to_nat n) with (S (Z.to_nat (n - 1))) by lia.
    apply Hk.
Qed.

Lemma rate_at_most_zero_gives_silence_witness :
  (forall j, 1 <= j < 3 ->
     exists v,
       <[22 := zero]> (<[21 := zero]> (<[20 := half]> (host_memory (of_int (-5)) half)))
         !! (outbuf (set_current host_instance half) + j) = Some v /\
       is_zero v = true) /\
  (1 <= 3 -> is_zero (current (set_current host_instance zero)) = true).
Proof.
  apply (rate_at_most_zero_gives_silence (host_memory (of_int (-5)) half)
           (set_current host_instance half) 3 _ _ (of_int (-5))).
  - lia.
  - reflexivity.
  - reflexivity.
  - reflexivity.
  - reflexivity.
  - vm_compute. reflexivity.
Defined.

(** ** Sequences of [connect] calls and the port tables *)

(** X10.  Of two consecutive [lmng_connect] calls on the same port the
    later one wins, and two calls on different ports may be swapped. *)
Theorem lmng_connect_last_call_wins :
  forall inst p1 l1 p2 l2,
    lmng_connect (lmng_connect inst p1 l1) p2 l2
      = if p1 =? p2 then lmng_connect inst p2 l2
        else lmng_connect (lmng_connect inst p2 l2) p1 l1.
Proof.
  intros inst p1 l1 p2 l2. unfold lmng_connect, PORT_R, PORT_SEED, PORT_OUT.
  destruct (Z.eqb_spec p1 p2) as [<-|Hne].
  - destruct (Z.eqb_spec p1 0); [reflexivity|].
    destruct (Z.eqb_spec p1 1); [reflexivity|].
    destruct (Z.eqb_spec p1 2); reflexivity.
  - destruct (Z.eqb_spec p1 0), (Z.eqb_spec p1 1), (Z.eqb_spec p1 2),
      (Z.eqb_spec p2 0), (Z.eqb_spec p2 1), (Z.eqb_spec p2 2);
      try reflexivity; lia.
Qed.

(** X11.  The descriptor and the [switch] of [lmng_connect] agree on the
    ports: each of the three port tables has [PortCount] entries, and the
    port indices on which some [lmng_connect] call has an effect are
    exactly those below [PortCount]. *)
Theorem lmng_connect_binds_the_declared_ports :
  length (PortDescriptors plugin) = Z.to_nat (PortCount plugin) /\
  length (PortNames plugin) = Z.to_nat (PortCount plugin) /\
  length (PortRangeHints plugin) = Z.to_nat (PortCount plugin) /\
  forall port,
    0 <= port < PortCount plugin <->
    exists inst location, lmng_connect inst port location <> inst.
Proof.
  repeat (split; [reflexivity|]). intros port. split.
  - intros Hp. exists lmng_state_new, 1.
    assert (port = 0 \/ port = 1 \/ port = 2) as [->|[->| ->]]
      by (simpl in Hp; unfold PORT_COUNT in Hp; lia); discriminate.
  - intros (inst & loc & Hne). unfold lmng_connect in Hne.
    simpl. unfold PORT_COUNT, PORT_R, PORT_SEED, PORT_OUT in *.
    destruct (Z.eqb_spec port 0); [lia|].
    destruct (Z.eqb_spec port 1); [lia|].
    destruct (Z.eqb_spec port 2); [lia|]. contradiction.
Qed.

(** ** Handles *)

Lemma fresh_handle_spec (live : gmap Z lmng_state) :
  fresh_handle live <> NULL /\ live !! fresh_handle live = None.
Proof.
  pose proof (is_fresh ({[NULL]} ∪ dom live)) as H. fold (fresh_handle live) in H.
  split.
  - intros E. apply H. rewrite E. set_solver.
  - apply not_elem_of_dom. intros E. apply H. set_solver.
Qed.

Lemma deref_instance_Done (live : gmap Z lmng_state) h inst :
  h <> NULL -> live !! h = Some inst -> deref_instance live h = Done inst.
Proof.
  intros Hh Hl. unfold deref_instance.
  destruct (Z.eqb_spec h NULL); [contradiction|]. rewrite Hl. reflexivity.
Qed.

Lemma connect_port_live (live : gmap Z lmng_state) h inst port location :
  h <> NULL -> live !! h = Some inst -> 0 <= port < PORT_COUNT ->
  connect_port live h port location
    = Done (<[h := lmng_connect inst port location]> live).
Proof.
  intros Hh Hl Hp. unfold connect_port.
  rewrite (deref_instance_Done live h inst Hh Hl).
  unfold PORT_R, PORT_SEED, PORT_OUT, PORT_COUNT in *.
  destruct (Z.eqb_spec port 0), (Z.eqb_spec port 1), (Z.eqb_spec port 2);
    simpl; try reflexivity; lia.
Qed.

Lemma run_live (live : gmap Z lmng_state) m h inst n r0 :
  h <> NULL -> live !! h = Some inst ->
  0 <= n <= INT_MAX -> load m (r inst) = Done r0 -> valid_buf m (outbuf inst) n ->
  exists m',
    run live m h n
      = Done (m', <[h := set_current inst
                           (recurrence (clamp_r r0) (current inst) (Z.to_nat n))]> live) /\
    (forall j, 0 <= j < n ->
       m' !! (outbuf inst + j)
         = Some (recurrence (clamp_r r0) (current inst) (Z.to_nat j))) /\
    (forall p, ~ (outbuf inst <= p < outbuf inst + n) -> m' !! p = m !! p).
Proof.
  intros Hh Hl Hn Hr Hbuf.
  destruct (lmng_run_spec m inst n r0 Hn Hr Hbuf) as (m' & Hrun & Hs & Hf).
  exists m'. unfold run. rewrite (deref_instance_Done live h inst Hh Hl).
  simpl obind. rewrite Hrun. simpl. auto.
Qed.

(** X13.  The whole life of an instance.  For any store of live
    instances, with [r] and the seed readable and a block of at most
    [INT_MAX] cells writable: discovery at index 0, [lmng_new], the three
    [lmng_connect] calls, [lmng_activate], [lmng_run] and [lmng_delete]
    all complete; the block holds the states of the recurrence started at
    the seed with the clamped growth rate; no other cell of the host has
    changed; and the store of instances is what it was before, the record
    allocated being released and no other instance touched. *)
Theorem host_session_spec :
  forall live m samplerate rp sp op n r0 s,
    0 <= n <= INT_MAX ->
    load m rp = Done r0 -> load m sp = Done s -> valid_buf m op n ->
    exists m',
      host_session live m samplerate rp sp op n = Done (m', live) /\
      (forall j, 0 <= j < n ->
         m' !! (op + j) = Some (recurrence (clamp_r r0) s (Z.to_nat j))) /\
      (forall p, ~ (op <= p < op + n) -> m' !! p = m !! p).
Proof.
  intros live m samplerate rp sp op n r0 s Hn Hr Hs Hbuf.
  destruct (fresh_handle_spec live) as [Hh Hfresh].
  unfold host_session.
  change (instantiate live (ladspa_descriptor 0) samplerate)
    with (fresh_handle live, <[fresh_handle live := lmng_state_new]> live).
  cbn [fst snd]. set (h := fresh_handle live) in *.
  rewrite (connect_port_live _ h lmng_state_new PORT_R rp Hh)
    by (apply lookup_insert_eq || (unfold PORT_R, PORT_COUNT; lia)).
  cbn [obind]. rewrite insert_insert_eq.
  rewrite (connect_port_live _ h _ PORT_SEED sp Hh)
    by (apply lookup_insert_eq || (unfold PORT_SEED, PORT_COUNT; lia)).
  cbn [obind]. rewrite insert_insert_eq.
  rewrite (connect_port_live _ h _ PORT_OUT op Hh)
    by (apply lookup_insert_eq || (unfold PORT_OUT, PORT_COUNT; lia)).
  cbn [obind]. rewrite insert_insert_eq.
  change (lmng_connect (lmng_connect (lmng_connect lmng_state_new PORT_R rp)
            PORT_SEED sp) PORT_OUT op)
    with {| r := rp; seed := sp; outbuf := op; current := zero |}.
  unfold activate.
  rewrite (deref_instance_Done _ h _ Hh) by apply lookup_insert_eq.
  simpl obind. unfold lmng_activate. cbn [seed]. rewrite Hs. simpl obind.
  rewrite insert_insert_eq.
  destruct (run_live (<[h := set_current {| r := rp; seed := sp; outbuf := op;
                                           current := zero |} s]> live)
              m h _ n r0 Hh (lookup_insert_eq _ _ _) Hn Hr Hbuf)
    as (m' & Hrun & Hsamples & Hframe).
  rewrite Hrun. simpl obind. cbn [fst snd]. rewrite insert_insert_eq.
  unfold cleanup. destruct (Z.eqb_spec h NULL); [contradiction|].
  rewrite lookup_insert_eq. simpl obind.
  rewrite delete_insert_id by exact Hfresh.
  exists m'. split; [reflexivity|]. split; assumption.
Qed.

Lemma host_session_spec_witness :
  exists m',
    host_session ∅ (host_memory (of_int 10) half) 44100 10 11 20 3
      = Done (m', ∅) /\
    (forall j, 0 <= j < 3 ->
       m' !! (20 + j) = Some (recurrence (clamp_r (of_int 10)) half (Z.to_nat j))) /\
    (forall p, ~ (20 <= p < 20 + 3) -> m' !! p = host_memory (of_int 10) half !! p).
Proof.
  apply (host_session_spec ∅ (host_memory (of_int 10) half) 44100 10 11 20 3
           (of_int 10) half).
  - unfold INT_MAX. lia.
  - reflexivity.
  - reflexivity.
  - apply host_memory_valid_buf.
Defined.

(** X14.  Instances do not interfere.  Two live instances whose output
    blocks are disjoint, and whose [r] cells lie outside the other's
    block, may be run in either order: both orders complete with the same
    memory and the same store of instances, in which each instance holds
    the state its own block led to. *)
Theorem runs_of_two_instances_commute :
  forall live m h1 h2 i1 i2 n1 n2 r1 r2,
    h1 <> NULL -> h2 <> NULL -> h1 <> h2 ->
    live !! h1 = Some i1 -> live !! h2 = Some i2 ->
    0 <= n1 <= INT_MAX -> 0 <= n2 <= INT_MAX ->
    load m (r i1) = Done r1 -> load m (r i2) = Done r2 ->
    valid_buf m (outbuf i1) n1 -> valid_buf m (outbuf i2) n2 ->
    outbuf i1 + n1 <= outbuf i2 \/ outbuf i2 + n2 <= outbuf i1 ->
    ~ (outbuf i2 <= r i1 < outbuf i2 + n2) ->
    ~ (outbuf i1 <= r i2 < outbuf i1 + n1) ->
    exists res,
      (let* a := run live m h1 n1 in run (snd a) (fst a) h2 n2) = Done res /\
      (let* b := run live m h2 n2 in run (snd b) (fst b) h1 n1) = Done res /\
      snd res !! h1
        = Some (set_current i1 (recurrence (clamp_r r1) (current i1) (Z.to_nat n1))) /\
      snd res !! h2
        = Some (set_current i2 (recurrence (clamp_r r2) (current i2) (Z.to_nat n2))).
Proof.
  intros live m h1 h2 i1 i2 n1 n2 r1 r2 Hh1 Hh2 Hne Hl1 Hl2 Hn1 Hn2 Hr1 Hr2
    Hb1 Hb2 Hdisj Hr12 Hr21.
  destruct (run_live live m h1 i1 n1 r1 Hh1 Hl1 Hn1 Hr1 Hb1) as (m1 & Ea & Hs1 & Hf1).
  destruct (run_live live m h2 i2 n2 r2 Hh2 Hl2 Hn2 Hr2 Hb2) as (m2 & Eb & Hs2 & Hf2).
  set (i1' := set_current i1 (recurrence (clamp_r r1) (current i1) (Z.to_nat n1))) in *.
  set (i2' := set_current i2 (recurrence (clamp_r r2) (current i2) (Z.to_nat n2))) in *.
  assert (Hr2' : load m1 (r i2) = Done r2).
  { apply load_Done. apply load_Done in Hr2 as [? ?]. split; [assumption|].
    rewrite Hf1 by assumption. assumption. }
  assert (Hr1' : load m2 (r i1) = Done r1).
  { apply load_Done. apply load_Done in Hr1 as [? ?]. split; [assumption|].
    rewrite Hf2 by assumption. assumption. }
  assert (Hb2' : valid_buf m1 (outbuf i2) n2).
  { intros j Hj. destruct (Hb2 j Hj) as [? ?]. split; [assumption|].
    rewrite Hf1 by lia. assumption. }
  assert (Hb1' : valid_buf m2 (outbuf i1) n1).
  { intros j Hj. destruct (Hb1 j Hj) as [? ?]. split; [assumption|].
    rewrite Hf2 by lia. assumption. }
  destruct (run_live (<[h1 := i1']> live) m1 h2 i2 n2 r2 Hh2
              ltac:(rewrite lookup_insert_ne by exact Hne; exact Hl2) Hn2 Hr2' Hb2')
    as (m12 & Eab & Hs12 & Hf12).
  destruct (run_live (<[h2 := i2']> live) m2 h1 i1 n1 r1 Hh1
              ltac:(rewrite lookup_insert_ne by congruence; exact Hl1) Hn1 Hr1' Hb1')
    as (m21 & Eba & Hs21 & Hf21).
  fold i1' in Eba. fold i2' in Eab.
  exists (m12, <[h2 := i2']> (<[h1 := i1']> live)).
  rewrite Ea, Eb. simpl obind. cbn [fst snd]. rewrite Eab, Eba.
  split; [reflexivity|]. split; [|split].
  - f_equal. f_equal.
    + apply map_eq. intros p.
      destruct (decide (outbuf i1 <= p < outbuf i1 + n1)) as [H1|H1].
      * rewrite Hf12 by lia.
        replace p with (outbuf i1 + (p - outbuf i1)) by lia.
        rewrite Hs1, Hs21 by lia. reflexivity.
      * destruct (decide (outbuf i2 <= p < outbuf i2 + n2)) as [H2|H2].
        -- rewrite Hf21 by lia.
           replace p with (outbuf i2 + (p - outbuf i2)) by lia.
           rewrite Hs2, Hs12 by lia. reflexivity.
        -- rewrite Hf21, Hf12, Hf1, Hf2 by assumption. reflexivity.
    + apply insert_insert_ne. exact Hne.
  - rewrite lookup_insert_ne by congruence. apply lookup_insert_eq.
  - apply lookup_insert_eq.
Qed.

Lemma runs_of_two_instances_commute_witness :
  exists res,
    (let* a := run (<[1 := host_instance]> (<[2 := lmng_connect host_instance PORT_OUT 21]> ∅))
                 (host_memory four half) 1 1 in
     run (snd a) (fst a) 2 2) = Done res /\
    (let* b := run (<[1 := host_instance]> (<[2 := lmng_connect host_instance PORT_OUT 21]> ∅))
                 (host_memory four half) 2 2 in
     run (snd b) (fst b) 1 1) = Done res /\
    snd res !! 1
      = Some (set_current host_instance
                (recurrence (clamp_r four) (current host_instance) (Z.to_nat 1))) /\
    snd res !! 2
      = Some (set_current (lmng_connect host_instance PORT_OUT 21)
                (recurrence (clamp_r four)
                   (current (lmng_connect host_instance PORT_OUT 21)) (Z.to_nat 2))).
Proof.
  apply (runs_of_two_instances_commute
           (<[1 := host_instance]> (<[2 := lmng_connect host_instance PORT_OUT 21]> ∅))
           (host_memory four half) 1 2 host_instance
           (lmng_connect host_instance PORT_OUT 21) 1 2 four four);
    try discriminate; try reflexivity; try (unfold INT_MAX; lia).
  - intros i Hi. assert (i = 0) as -> by lia.
    split; [discriminate | eexists; reflexivity].
  - intros i Hi. assert (i = 0 \/ i = 1) as [->| ->] by lia;
      (split; [discriminate | eexists; reflexivity]).
  - left. simpl. lia.
  - simpl. lia.
  - simpl. lia.
Defined.

(** ** Which undefined behaviour *)

Lemma store_Undefined (m : gmap Z LADSPA_Data) p v u :
  store m p v = Undefined u -> u = BadDereference /\ ~ valid_ptr m p.
Proof.
  unfold store, valid_ptr. destruct (Z.eqb_spec p NULL) as [->|Hp].
  - intros [= <-]. split; [reflexivity|]. intros [H _]. apply H. reflexivity.
  - destruct (m !! p) as [w|] eqn:E; [discriminate|].
    intros [= <-]. split; [reflexivity|]. intros [_ [w Hw]]. discriminate.
Qed.

(** The first cell that cannot be written stops the loop. *)
Lemma run_loop_bad_cell g n (fuel : nat) :
  forall i m inst k,
    0 <= i <= k -> k < n -> k <= INT_MAX -> k - i < Z.of_nat fuel ->
    ~ valid_ptr m (outbuf inst + k) ->
    run_loop fuel g n i m inst = Undefined BadDereference.
Proof.
  induction fuel as [|fuel IH]; intros i m inst k Hi Hk Hmax Hfuel Hbad; [lia|].
  simpl. rewrite ulong_of_int_small by lia.
  destruct (Z.ltb_spec i n); [|lia].
  destruct (store m (outbuf inst + i) (current inst)) as [m1|u|] eqn:Hst.
  - apply store_Done in Hst as [Hv ->]. simpl.
    assert (i <> k) by (intros ->; contradiction).
    unfold int_succ. destruct (Z.ltb_spec i INT_MAX); [|lia]. simpl.
    apply (IH (i + 1) _ _ k); try lia.
    simpl. intros Hv'. apply Hbad.
    eapply valid_ptr_insert_inv; [exact Hv | exact Hv'].
  - apply store_Undefined in Hst as [-> _]. reflexivity.
  - unfold store in Hst. destruct (outbuf inst + i =? NULL); [discriminate|].
    destruct (m !! (outbuf inst + i)); discriminate.
Qed.

(** What a loop that ended in undefined behaviour tells. *)
Lemma run_loop_Undefined_inv g n (fuel : nat) :
  forall i m inst u,
    0 <= i <= INT_MAX ->
    run_loop fuel g n i m inst = Undefined u ->
    match u with
    | BadDereference =>
        exists k, i <= k < n /\ k <= INT_MAX /\ ~ valid_ptr m (outbuf inst + k)
    | SignedOverflow =>
        INT_MAX < n /\ forall j, i <= j <= INT_MAX -> valid_ptr m (outbuf inst + j)
    end.
Proof.
  induction fuel as [|fuel IH]; intros i m inst u Hi Hrun; simpl in Hrun;
    rewrite ulong_of_int_small in Hrun by assumption;
    destruct (Z.ltb_spec i n) as [Hlt|Hge]; try discriminate.
  destruct (store m (outbuf inst + i) (current inst)) as [m1|u1|] eqn:Hst;
    simpl in Hrun; try discriminate.
  - apply store_Done in Hst as [Hv ->].
    unfold int_succ in Hrun. destruct (Z.ltb_spec i INT_MAX) as [Hlt'|Hge'].
    + simpl in Hrun. apply IH in Hrun; [|lia]. simpl in Hrun. destruct u.
      * destruct Hrun as (k & Hk & Hmax & Hbad). exists k.
        split; [lia|]. split; [assumption|].
        intros Hk'. apply Hbad. apply valid_ptr_insert. exact Hk'.
      * destruct Hrun as [Hn Hall]. split; [assumption|].
        intros j Hj. destruct (Z.eq_dec j i) as [->|Hne]; [assumption|].
        eapply valid_ptr_insert_inv; [exact Hv|]. apply Hall. lia.
    + simpl in Hrun. injection Hrun as <-. split; [lia|].
      intros j Hj. assert (j = i) as -> by lia. assumption.
  - injection Hrun as <-. apply store_Undefined in Hst as [-> Hbad].
    exists i. split; [lia|]. split; [lia | assumption].
Qed.

(** X15.  The undefined behaviour of [lmng_run], in full.  The call ends in
    the overflow of the [int] counter exactly when [r] can be read, the
    count exceeds [INT_MAX] and the first [INT_MAX + 1] cells of the block
    can be written; it ends in an invalid access exactly when [r] cannot
    be read or one of the cells the loop reaches, among the first
    [INT_MAX + 1], cannot be written: no bound of the buffer is known to
    the code. *)
Theorem lmng_run_undefined_behaviour :
  forall m inst n,
    0 <= n ->
    (lmng_run m inst n = Undefined SignedOverflow <->
     valid_ptr m (r inst) /\ INT_MAX < n /\
     valid_buf m (outbuf inst) (INT_MAX + 1)) /\
    (lmng_run m inst n = Undefined BadDereference <->
     ~ valid_ptr m (r inst) \/
     exists k, 0 <= k < n /\ k <= INT_MAX /\ ~ valid_ptr m (outbuf inst + k)).
Proof.
  intros m inst n Hn.
  assert (H0 : 0 <= 0 <= INT_MAX) by (unfold INT_MAX; lia).
  assert (Hinv : forall u, lmng_run m inst n = Undefined u ->
            match u with
            | BadDereference =>
                ~ valid_ptr m (r inst) \/
                exists k, 0 <= k < n /\ k <= INT_MAX /\
                          ~ valid_ptr m (outbuf inst + k)
            | SignedOverflow =>
                valid_ptr m (r inst) /\ INT_MAX < n /\
                valid_buf m (outbuf inst) (INT_MAX + 1)
            end).
  { intros u Hrun. unfold lmng_run in Hrun.
    destruct (load m (r inst)) as [r0|u0|] eqn:Hr; simpl obind in Hrun.
    - apply load_Done in Hr as [Hnull Hr].
      assert (Hvr : valid_ptr m (r inst)) by (split; [assumption | rewrite Hr; eauto]).
      apply run_loop_Undefined_inv in Hrun; [|exact H0]. destruct u.
      + right. exact Hrun.
      + destruct Hrun as [Hmax Hall]. split; [exact Hvr|]. split; [exact Hmax|].
        intros j Hj. apply Hall. lia.
    - injection Hrun as <-.
      assert (Hbad : u0 = BadDereference /\ ~ valid_ptr m (r inst)).
      { unfold load in Hr. unfold valid_ptr.
        destruct (Z.eqb_spec (r inst) NULL) as [E|E].
        - injection Hr as <-. split; [reflexivity|]. intros [H _]. contradiction.
        - destruct (m !! r inst) eqn:El; [discriminate|]. injection Hr as <-.
          split; [reflexivity|]. intros [_ [w Hw]]. discriminate. }
      destruct Hbad as [-> Hbad]. left. exact Hbad.
    - discriminate. }
  split; split.
  - apply (Hinv SignedOverflow).
  - intros (Hr & Hmax & Hbuf).
    destruct (load_valid m (r inst) Hr) as (r0 & Hl & _).
    unfold lmng_run. rewrite Hl. simpl obind.
    apply run_loop_overflow_valid; unfold INT_MAX in *; try lia.
    intros j Hj. apply Hbuf. lia.
  - apply (Hinv BadDereference).
  - intros [Hr|(k & Hk & Hmax & Hbad)].
    + unfold lmng_run, load. unfold valid_ptr in Hr.
      destruct (Z.eqb_spec (r inst) NULL); [reflexivity|].
      destruct (m !! r inst) eqn:E; [|reflexivity].
      exfalso. apply Hr. split; [assumption | eauto].
    + unfold lmng_run.
      destruct (load m (r inst)) as [r0|u0|] eqn:Hr; simpl obind.
      * apply (run_loop_bad_cell _ _ _ 0 _ _ k); try lia. exact Hbad.
      * unfold load in Hr. destruct (r inst =? NULL); [congruence|].
        destruct (m !! r inst); congruence.
      * unfold load in Hr. destruct (r inst =? NULL); [discriminate|].
        destruct (m !! r inst); discriminate.
Qed.

Lemma lmng_run_undefined_behaviour_witness :
  ((lmng_run (host_memory four half) host_instance 4 = Undefined SignedOverflow <->
   valid_ptr (host_memory four half) (r host_instance) /\ INT_MAX < 4 /\
   valid_buf (host_memory four half) (outbuf host_instance) (INT_MAX + 1)) /\
  (lmng_run (host_memory four half) host_instance 4 = Undefined BadDereference <->
   ~ valid_ptr (host_memory four half) (r host_instance) \/
   exists k, 0 <= k < 4 /\ k <= INT_MAX /\
             ~ valid_ptr (host_memory four half) (outbuf host_instance + k))) /\
  lmng_run (host_memory four half) host_instance 4 = Undefined BadDereference.
Proof.
  split; [|reflexivity].
  apply (lmng_run_undefined_behaviour (host_memory four half) host_instance 4). lia.
Defined.
